(** * Morningstar: the CSV contact importer and the rich text editor

    A shallow embedding of the parsing, validation and state handling of
    [client/src/components/CSVImporter.tsx] and of [formatText] in
    [client/src/components/RichTextEditor.tsx].

    JavaScript strings are sequences of UTF-16 code units; a code unit is an
    [N] and a string a list of them, so that [length] is the [.length] of the
    source.  React state is a record, a handler is a function from the state
    its closure was created in and the state at the time it runs to the new
    state and the effects it emits (notifications, the completion callback,
    file reads). *)

From Stdlib Require Import Ascii String.
From Stdlib Require Import List NArith ZArith Bool Lia.
Import ListNotations.

(* ================================================================== *)
(** ** JavaScript strings and the array and string primitives used *)
(* ================================================================== *)

Module JS.

Definition codeUnit := N.
Definition jsstring := list codeUnit.

(** A string literal of the source, given by its ASCII text. *)
Definition lit (s : string) : jsstring :=
  List.map N_of_ascii (list_ascii_of_string s).

(** [a === b] on strings. *)
Fixpoint strEq (a b : jsstring) : bool :=
  match a, b with
  | [], [] => true
  | x :: a', y :: b' => N.eqb x y && strEq a' b'
  | _, _ => false
  end.

(** [s.startsWith(p)] *)
Fixpoint startsWith (p s : jsstring) : bool :=
  match p, s with
  | [], _ => true
  | x :: p', y :: s' => N.eqb x y && startsWith p' s'
  | _ :: _, [] => false
  end.

(** [s.includes(p)] *)
Fixpoint includes (p s : jsstring) : bool :=
  startsWith p s ||
  match s with
  | [] => false
  | _ :: s' => includes p s'
  end.

(** [s.endsWith(p)] *)
Definition endsWith (p s : jsstring) : bool :=
  startsWith (rev p) (rev s).

(** The WhiteSpace and LineTerminator code points of ECMAScript, which
    [trim] removes from both ends. *)
Definition isWhiteSpace (c : codeUnit) : bool :=
  ((9 <=? c) && (c <=? 13) || (c =? 32) || (c =? 160) || (c =? 5760)
   || (8192 <=? c) && (c <=? 8202) || (c =? 8232) || (c =? 8233)
   || (c =? 8239) || (c =? 8287) || (c =? 12288) || (c =? 65279))%N.

Fixpoint trimStart (s : jsstring) : jsstring :=
  match s with
  | c :: s' => if isWhiteSpace c then trimStart s' else s
  | [] => []
  end.

Definition trimEnd (s : jsstring) : jsstring := rev (trimStart (rev s)).

(** [s.trim()] *)
Definition trim (s : jsstring) : jsstring := trimEnd (trimStart s).

(** The class [\d] of a regular expression without the unicode flag:
    the ten ASCII digits. *)
Definition isDigit (c : codeUnit) : bool := ((48 <=? c) && (c <=? 57))%N.

(** Splitting at the matches of a pattern.  [m s] is the length of the match
    that starts at the head of [s], if there is one; matches are searched from
    left to right and do not overlap.  [skip] counts the code units of the
    current match still to be dropped and [cur] holds the current piece,
    reversed.  The patterns of this program never match the empty string. *)
Fixpoint splitGo (m : jsstring -> option nat) (skip : nat) (cur s : jsstring)
  : list jsstring :=
  match s with
  | [] => [rev cur]
  | c :: s' =>
      match skip with
      | S k => splitGo m k cur s'
      | O =>
          match m s with
          | Some (S n) => rev cur :: splitGo m n [] s'
          | _ => splitGo m 0 (c :: cur) s'
          end
      end
  end.

Definition splitBy (m : jsstring -> option nat) (s : jsstring) : list jsstring :=
  splitGo m 0 [] s.

(** The match of a literal separator. *)
Definition matchLiteral (sep s : jsstring) : option nat :=
  if startsWith sep s then Some (length sep) else None.

(** [s.split(sep)] for a non-empty string [sep]. *)
Definition split (sep s : jsstring) : list jsstring :=
  splitBy (matchLiteral sep) s.

(** [s.replace(re, '')] for a global pattern: what is left between the
    matches, joined. *)
Definition removeAll (m : jsstring -> option nat) (s : jsstring) : jsstring :=
  concat (splitBy m s).

(** [s.substring(a, b)]: both indices are clamped to the length and swapped
    when out of order. *)
Definition substring (s : jsstring) (a b : nat) : jsstring :=
  let a' := Nat.min a (length s) in
  let b' := Nat.min b (length s) in
  let lo := Nat.min a' b' in
  let hi := Nat.max a' b' in
  firstn (hi - lo) (skipn lo s).

(** [s.substring(a)] *)
Definition substringFrom (s : jsstring) (a : nat) : jsstring :=
  substring s a (length s).

(** [toLowerCase] on strings of the Basic Latin range: [A]-[Z] go to [a]-[z]
    and every other code unit stays. *)
Definition lowerUnit (c : codeUnit) : codeUnit :=
  if ((65 <=? c) && (c <=? 90))%N then (c + 32)%N else c.

Definition asciiLowerCase (s : jsstring) : jsstring := map lowerUnit s.

Definition isAscii (c : codeUnit) : bool := (c <? 128)%N.

(** [arr.findIndex(p)], [-1] when no element satisfies [p]. *)
Fixpoint findIndexFrom {A} (p : A -> bool) (i : Z) (l : list A) : Z :=
  match l with
  | [] => (-1)%Z
  | x :: l' => if p x then i else findIndexFrom p (i + 1)%Z l'
  end.

Definition findIndex {A} (p : A -> bool) (l : list A) : Z := findIndexFrom p 0%Z l.

(** [arr.indexOf(x)] on an array of strings. *)
Definition indexOf (l : list jsstring) (x : jsstring) : Z := findIndex (strEq x) l.

(** [arr[i]], [undefined] (here [None]) out of range. *)
Definition at_ {A} (l : list A) (i : Z) : option A :=
  if (i <? 0)%Z then None else nth_error l (Z.to_nat i).

End JS.
Import JS.

(* ================================================================== *)
(** ** CSVImporter.tsx: parsing and validation *)
(* ================================================================== *)

Module CSVImporter.

(** [type ContactImport] *)
Record ContactImport := {
  name : jsstring;
  phoneNumber : jsstring;
  isValid : bool
}.

(** What a [try] block of the component can throw. *)
Inductive Exn :=
| TypeError          (* a property read on [undefined] or [null] *)
| EmptyCSV           (* new Error("Arquivo CSV vazio") *)
| ColumnsNotFound.   (* new Error("Colunas selecionadas nao encontradas") *)

Inductive result (A : Type) :=
| Ok (a : A)
| Throw (e : Exn).
Arguments Ok {A} a.
Arguments Throw {A} e.

(** The literals of the file-import path.  The source writes them with a
    doubled backslash, so each of them stands for the backslash itself
    followed by the letters: the pattern [/\\r?\\n/] matches a backslash, an
    optional [r], a backslash and an [n]; ['\\ufeff'] is a string of six code
    units; ['\\t'] is a backslash and a [t]; [/\\D/g] matches a backslash and
    a [D].  A string of Rocq has no escapes: ["\t"] below is those two
    characters. *)
Definition backslash_r_backslash_n : jsstring := lit "\r\n".
Definition backslash_backslash_n : jsstring := lit "\\n".
Definition bomLiteral : jsstring := lit "\" ++ lit "ufeff".
Definition tabLiteral : jsstring := lit "\t".
Definition backslash_D : jsstring := lit "\D".

(** The pattern [/\\r?\\n/]: [r?] is greedy and the two alternatives exclude
    each other on the second code unit. *)
Definition matchLineBreak (s : jsstring) : option nat :=
  if startsWith backslash_r_backslash_n s then Some 4
  else if startsWith backslash_backslash_n s then Some 3
  else None.

(** [csv.split(/\\r?\\n/).filter(line => line.trim().length > 0)] *)
Definition splitLines (csv : jsstring) : list jsstring :=
  filter (fun line => 0 <? length (trim line)) (splitBy matchLineBreak csv).

(** [new RegExp(delimiter, 'g')] on the three delimiters of [detectDelimiter]:
    as a pattern, a backslash and a [t] is the escape of the TAB character
    (code unit 9); a comma and a semicolon stand for themselves. *)
Definition regExp (pattern : jsstring) : jsstring -> option nat :=
  if strEq pattern tabLiteral then matchLiteral [9%N]
  else matchLiteral pattern.

(** [(s.match(re) || []).length] for a global pattern. *)
Fixpoint countGo (m : jsstring -> option nat) (skip : nat) (s : jsstring) : nat :=
  match s with
  | [] => 0
  | _ :: s' =>
      match skip with
      | S k => countGo m k s'
      | O =>
          match m s with
          | Some (S n) => S (countGo m n s')
          | _ => countGo m 0 s'
          end
      end
  end.

Definition countMatches (m : jsstring -> option nat) (s : jsstring) : nat :=
  countGo m 0 s.

Definition delimiters : list jsstring := [lit ","; lit ";"; tabLiteral].

(** One turn of the loop of [detectDelimiter] on (bestDelimiter, maxCount). *)
Definition detectStep (headerLine : jsstring) (acc : jsstring * nat)
  (delimiter : jsstring) : jsstring * nat :=
  let count := countMatches (regExp delimiter) headerLine in
  if snd acc <? count then (delimiter, count) else acc.

Definition detectDelimiter (headerLine : jsstring) : jsstring :=
  fst (fold_left (detectStep headerLine) delimiters (lit ",", 0)).

(** [.replace(/^"|"$/g, '')]: a double quote at the very start and one at the
    very end are removed. *)
Definition stripQuotes (s : jsstring) : jsstring :=
  let s1 := match s with
            | c :: t => if (c =? 34)%N then t else s
            | [] => []
            end in
  match rev s1 with
  | c :: t => if (c =? 34)%N then rev t else s1
  | [] => s1
  end.

(** [cell => cell.trim().replace(/^"|"$/g, '')] *)
Definition cleanCell (cell : jsstring) : jsstring := stripQuotes (trim cell).

Definition splitRow (delimiter line : jsstring) : list jsstring :=
  map cleanCell (split delimiter line).

(** Lines 289-297: the phone number of a row and its validity. *)
Definition normalizePhone (raw : jsstring) : jsstring * bool :=
  let phoneNumber := removeAll (matchLiteral backslash_D) raw in
  let phoneNumber :=
    if (length phoneNumber <=? 12) && negb (startsWith (lit "55") phoneNumber)
    then lit "55" ++ phoneNumber
    else phoneNumber in
  (phoneNumber, 12 <=? length phoneNumber).

(** The body of the loop over the data rows: [None] when the row is skipped.
    Past the length test both indices are in range, see [mapRow_in_range]. *)
Definition mapRow (delimiter : jsstring) (nameIndex phoneIndex : Z)
  (line : jsstring) : option ContactImport :=
  if negb (0 <? length (trim line)) then None
  else
    let values := splitRow delimiter line in
    if (Z.of_nat (length values) <=? Z.max nameIndex phoneIndex)%Z then None
    else
      let name := nth (Z.to_nat nameIndex) values [] in
      let '(phoneNumber, isValid) :=
        normalizePhone (nth (Z.to_nat phoneIndex) values []) in
      Some {| name := name; phoneNumber := phoneNumber; isValid := isValid |}.

Fixpoint mapRows (delimiter : jsstring) (nameIndex phoneIndex : Z)
  (lines : list jsstring) : list ContactImport :=
  match lines with
  | [] => []
  | line :: rest =>
      match mapRow delimiter nameIndex phoneIndex line with
      | Some c => c :: mapRows delimiter nameIndex phoneIndex rest
      | None => mapRows delimiter nameIndex phoneIndex rest
      end
  end.

(** The header list of [validateAndMapContacts]: the cells of the first line,
    then the first header loses its first code unit when it starts with the
    six code units of [bomLiteral]. *)
Definition mapHeaders (line0 : jsstring) : list jsstring :=
  match splitRow (detectDelimiter line0) line0 with
  | h0 :: t => (if startsWith bomLiteral h0 then substringFrom h0 1 else h0) :: t
  | [] => []
  end.

(** [headers.indexOf(column)] for a column selection of the state, which can
    be [undefined] ([None]): that is no element of [headers]. *)
Definition indexOfColumn (headers : list jsstring) (column : option jsstring) : Z :=
  match column with
  | Some c => indexOf headers c
  | None => (-1)%Z
  end.

(** The [try] block of the [onload] handler of [validateAndMapContacts], up to
    the state updates: the mapped contacts, or what is thrown.  With no line
    at all [lines[0]] is [undefined] and [detectDelimiter] fails on it. *)
Definition mapContacts (nameColumn phoneColumn : option jsstring) (csv : jsstring)
  : result (list ContactImport) :=
  match splitLines csv with
  | [] => Throw TypeError
  | line0 :: rest =>
      let delimiter := detectDelimiter line0 in
      let headers := mapHeaders line0 in
      let nameIndex := indexOfColumn headers nameColumn in
      let phoneIndex := indexOfColumn headers phoneColumn in
      if (nameIndex =? -1)%Z || (phoneIndex =? -1)%Z then Throw ColumnsNotFound
      else Ok (mapRows delimiter nameIndex phoneIndex rest)
  end.

(** The direct-input path, lines 631-640. *)
Definition digitsOnly (s : jsstring) : jsstring := filter isDigit s.

Definition directContact (phoneNumber : jsstring) : ContactImport :=
  {| name := phoneNumber;
     phoneNumber := if startsWith (lit "55") phoneNumber then phoneNumber
                    else lit "55" ++ phoneNumber;
     isValid := 10 <=? length phoneNumber |}.

Definition directNumbers (text : jsstring) : list jsstring :=
  filter (fun n => 0 <? length n)
    (map (fun n => digitsOnly (trim n)) (split [10%N] text)).

Definition mapDirectInput (text : jsstring) : list ContactImport :=
  map directContact (directNumbers text).

(* ================================================================== *)
(** ** CSVImporter.tsx: component state, handlers and effects *)
(* ================================================================== *)

(** The values of [step].  The source writes them ['upload'], ['map'],
    ['preview'] and ['confirm']. *)
Inductive Step := Upload | Map | Preview | Confirm.

(** A selected file: its name and MIME type, the text [readAsText] yields on
    the whole file, and the texts it yields on the successive 1 MiB slices
    [csvFile.slice(offset, offset + CHUNK_SIZE)] that [processCSV] reads while
    [offset < csvFile.size]. *)
Record File := {
  fileName : jsstring;
  fileType : jsstring;
  fileText : jsstring;
  sliceTexts : list jsstring
}.

(** The [useState] cells of the component.  A column selection can hold
    [undefined] ([None]), which [setPhoneColumn(headers[1])] can store. *)
Record State := {
  open : bool;
  file : option File;
  contacts : list ContactImport;
  nameColumn : option jsstring;
  phoneColumn : option jsstring;
  columns : list jsstring;
  isProcessing : bool;
  previewData : list (list jsstring);
  step : Step
}.

Definition setOpen (v : bool) (s : State) : State :=
  {| open := v; file := file s; contacts := contacts s;
     nameColumn := nameColumn s; phoneColumn := phoneColumn s;
     columns := columns s; isProcessing := isProcessing s;
     previewData := previewData s; step := step s |}.

Definition setFile (v : option File) (s : State) : State :=
  {| open := open s; file := v; contacts := contacts s;
     nameColumn := nameColumn s; phoneColumn := phoneColumn s;
     columns := columns s; isProcessing := isProcessing s;
     previewData := previewData s; step := step s |}.

Definition setContacts (v : list ContactImport) (s : State) : State :=
  {| open := open s; file := file s; contacts := v;
     nameColumn := nameColumn s; phoneColumn := phoneColumn s;
     columns := columns s; isProcessing := isProcessing s;
     previewData := previewData s; step := step s |}.

Definition setNameColumn (v : option jsstring) (s : State) : State :=
  {| open := open s; file := file s; contacts := contacts s;
     nameColumn := v; phoneColumn := phoneColumn s;
     columns := columns s; isProcessing := isProcessing s;
     previewData := previewData s; step := step s |}.

Definition setPhoneColumn (v : option jsstring) (s : State) : State :=
  {| open := open s; file := file s; contacts := contacts s;
     nameColumn := nameColumn s; phoneColumn := v;
     columns := columns s; isProcessing := isProcessing s;
     previewData := previewData s; step := step s |}.

Definition setColumns (v : list jsstring) (s : State) : State :=
  {| open := open s; file := file s; contacts := contacts s;
     nameColumn := nameColumn s; phoneColumn := phoneColumn s;
     columns := v; isProcessing := isProcessing s;
     previewData := previewData s; step := step s |}.

Definition setIsProcessing (v : bool) (s : State) : State :=
  {| open := open s; file := file s; contacts := contacts s;
     nameColumn := nameColumn s; phoneColumn := phoneColumn s;
     columns := columns s; isProcessing := v;
     previewData := previewData s; step := step s |}.

Definition setPreviewData (v : list (list jsstring)) (s : State) : State :=
  {| open := open s; file := file s; contacts := contacts s;
     nameColumn := nameColumn s; phoneColumn := phoneColumn s;
     columns := columns s; isProcessing := isProcessing s;
     previewData := v; step := step s |}.

Definition setStep (v : Step) (s : State) : State :=
  {| open := open s; file := file s; contacts := contacts s;
     nameColumn := nameColumn s; phoneColumn := phoneColumn s;
     columns := columns s; isProcessing := isProcessing s;
     previewData := previewData s; step := v |}.

(** The state of the first render. *)
Definition initialState : State :=
  {| open := false; file := None; contacts := [];
     nameColumn := Some []; phoneColumn := Some [];
     columns := []; isProcessing := false;
     previewData := []; step := Upload |}.

(** The toasts of the component, by their titles (and, where two share a
    title, their descriptions). *)
Inductive Notification :=
| FormatoInvalido             (* "Formato invalido" *)
| ErroAoProcessarCSV          (* "Erro ao processar arquivo", catch of processCSV *)
| ErroAoLerArquivo            (* "Erro ao ler arquivo", reader.onerror *)
| SelecaoDeColunasNecessaria  (* "Selecao de colunas necessaria" *)
| ErroAoProcessarContatos     (* "Erro ao processar contatos" *)
| ErroAoProcessarArquivo      (* "Erro ao processar arquivo", outer catch of
                                 validateAndMapContacts *)
| NenhumContatoValido         (* "Nenhum contato valido" *)
| ImportacaoConcluida (n : nat). (* "Importacao concluida", with the count *)

(** A file read that has been started and whose callback has not run yet,
    with the render state [r] its closure was created in. *)
Inductive Pending :=
| ReadForPreview (r : State) (csvFile : File)   (* the reader of processCSV *)
| ReadForMapping (r : State) (f : File).        (* of validateAndMapContacts *)

(** What a handler does besides updating the state.  The diagnostics written
    to the console are not part of the model. *)
Inductive Effect :=
| Toast (n : Notification)
| OnComplete (validContacts : list ContactImport).

Record Outcome := {
  next : State;
  effects : list Effect;
  reads : list Pending
}.

(** A handler reads the state variables of the render [r] it closes over; its
    setters write to the state [s] current when it runs. *)

Definition resetState (s : State) : State :=
  setIsProcessing false (setStep Upload (setPreviewData [] (setColumns []
    (setPhoneColumn (Some []) (setNameColumn (Some [])
      (setContacts [] (setFile None s))))))).

(** [!column] is false exactly on a non-empty string. *)
Definition chosen (column : option jsstring) : bool :=
  match column with
  | Some (_ :: _) => true
  | _ => false
  end.

(** [validateAndMapContacts] up to the start of the read.  [readAsText] on a
    [null] file throws, which the outer [catch] turns into a toast. *)
Definition validateAndMapContacts (r s : State) : Outcome :=
  if negb (chosen (nameColumn r)) || negb (chosen (phoneColumn r)) then
    {| next := s; effects := [Toast SelecaoDeColunasNecessaria]; reads := [] |}
  else
    match file r with
    | Some f =>
        {| next := setIsProcessing true s; effects := [];
           reads := [ReadForMapping r f] |}
    | None =>
        {| next := setIsProcessing false (setIsProcessing true s);
           effects := [Toast ErroAoProcessarArquivo]; reads := [] |}
    end.

(** The [onload] handler of [validateAndMapContacts] on the text read. *)
Definition mappingLoaded (r s : State) (csv : jsstring) : Outcome :=
  match mapContacts (nameColumn r) (phoneColumn r) csv with
  | Ok mappedContacts =>
      {| next := setStep Preview (setIsProcessing false
                   (setContacts mappedContacts s));
         effects := []; reads := [] |}
  | Throw _ =>
      {| next := setIsProcessing false s;
         effects := [Toast ErroAoProcessarContatos]; reads := [] |}
  end.

(** [reader.onerror], the same in both readers. *)
Definition readFailed (s : State) : Outcome :=
  {| next := setIsProcessing false s;
     effects := [Toast ErroAoLerArquivo]; reads := [] |}.

Section Parse.

(** [String.prototype.toLowerCase].  Its table covers all of Unicode and is
    not part of this repository: the development holds for any such function,
    and what is needed of it is assumed where it is used. *)
Variable toLowerCase : jsstring -> jsstring.

(** The predicates of the two [findIndex] calls of [processCSV]. *)
Definition isNameHeader (h : jsstring) : bool :=
  let normalized := trim (toLowerCase h) in
  strEq normalized (lit "nome") ||
  strEq normalized (lit "name") ||
  strEq normalized (lit "cliente") ||
  strEq normalized (lit "contato") ||
  includes (lit "nome") normalized ||
  includes (lit "name") normalized.

Definition isPhoneHeader (h : jsstring) : bool :=
  let normalized := trim (toLowerCase h) in
  strEq normalized (lit "telefone") ||
  strEq normalized (lit "phone") ||
  strEq normalized (lit "celular") ||
  strEq normalized (lit "whatsapp") ||
  strEq normalized (lit "numero") ||
  strEq normalized (lit "number") ||
  strEq normalized (lit "tel") ||
  includes (lit "telefone") normalized ||
  includes (lit "phone") normalized ||
  includes (lit "celular") normalized ||
  includes (lit "whatsapp") normalized.

Definition nameColumnIndex (headers : list jsstring) : Z :=
  findIndex isNameHeader headers.

Definition phoneColumnIndex (headers : list jsstring) : Z :=
  findIndex isPhoneHeader headers.

(** What the [try] block of the [onload] handler of [processCSV] computes from
    the joined chunks before it updates the state. *)
Record Parsed := {
  headers : list jsstring;
  preview : list (list jsstring);
  selectedName : option jsstring;
  selectedPhone : option jsstring
}.

(** The column selections of lines 174-185. *)
Definition selectName (headers : list jsstring) : option jsstring :=
  if negb (nameColumnIndex headers =? -1)%Z
  then at_ headers (nameColumnIndex headers)
  else at_ headers 0%Z.

Definition selectPhone (headers : list jsstring) : option jsstring :=
  if negb (phoneColumnIndex headers =? -1)%Z
  then at_ headers (phoneColumnIndex headers)
  else at_ headers 1%Z.

Definition parseCSV (csv : jsstring) : result Parsed :=
  match splitLines csv with
  | [] => Throw EmptyCSV
  | line0 :: rest =>
      let headerLine :=
        if startsWith bomLiteral line0 then substringFrom line0 1 else line0 in
      let lines := headerLine :: rest in
      let delimiter := detectDelimiter headerLine in
      let headers := splitRow delimiter headerLine in
      Ok {| headers := headers;
            preview := map (splitRow delimiter) (firstn 5 lines);
            selectedName := selectName headers;
            selectedPhone := selectPhone headers |}
  end.

(** [chunks.join('')]: the reader is first started on the whole file and then
    on each slice from offset 0 on, and every result is pushed. *)
Definition joinChunks (csvFile : File) : jsstring :=
  concat (fileText csvFile :: sliceTexts csvFile).

(** The last run of the [onload] handler of [processCSV], on the joined
    chunks.  Lines 156-162 set the recognised selections a first time; lines
    174-185 set both again and decide the state.  The handler ends in a call
    of [validateAndMapContacts] of the same render [r], whose column
    selections are those of [r], not the ones just set. *)
Definition previewLoaded (r s : State) (csv : jsstring) : Outcome :=
  match parseCSV csv with
  | Throw _ =>
      {| next := setIsProcessing false s;
         effects := [Toast ErroAoProcessarCSV]; reads := [] |}
  | Ok p =>
      validateAndMapContacts r
        (setPhoneColumn (selectedPhone p)
          (setNameColumn (selectedName p)
            (setIsProcessing false
              (setPreviewData (preview p)
                (setColumns (headers p) s)))))
  end.

(** [processCSV]: the read is started. *)
Definition processCSV (r s : State) (csvFile : File) : Outcome :=
  {| next := setIsProcessing true s; effects := [];
     reads := [ReadForPreview r csvFile] |}.

Definition handleFileChange (r s : State) (selected : option File) : Outcome :=
  match selected with
  | None => {| next := s; effects := []; reads := [] |}
  | Some selectedFile =>
      if negb (strEq (fileType selectedFile) (lit "text/csv"))
         && negb (endsWith (lit ".csv") (fileName selectedFile))
      then {| next := setFile (Some selectedFile) s;
              effects := [Toast FormatoInvalido]; reads := [] |}
      else processCSV r (setFile (Some selectedFile) s) selectedFile
  end.

End Parse.

(** [handleConfirm] *)
Definition handleConfirm (r s : State) : Outcome :=
  let validContacts := filter isValid (contacts r) in
  if length validContacts =? 0 then
    {| next := s; effects := [Toast NenhumContatoValido]; reads := [] |}
  else
    {| next := setOpen false (resetState s);
       effects := [OnComplete validContacts;
                   Toast (ImportacaoConcluida (length validContacts))];
       reads := [] |}.

(** The [onChange] handler of the textarea of the direct-input tab. *)
Definition directChange (s : State) (value : jsstring) : Outcome :=
  let contacts := mapDirectInput value in
  {| next := if 0 <? length contacts
             then setStep Preview (setContacts contacts s)
             else setContacts contacts s;
     effects := []; reads := [] |}.

(** The [onClick] handler of the button of the direct-input tab. *)
Definition directSend (r s : State) : Outcome :=
  let validContacts := filter isValid (contacts r) in
  if 0 <? length validContacts then
    {| next := resetState (setOpen false s);
       effects := [OnComplete validContacts]; reads := [] |}
  else {| next := s; effects := []; reads := [] |}.

(** [onOpenChange] of the dialog. *)
Definition openChange (s : State) (newOpen : bool) : State :=
  setOpen newOpen (if negb newOpen then resetState s else s).

(* ================================================================== *)
(** ** The component as a transition system *)
(* ================================================================== *)

(** The state shown and the reads in flight. *)
Record Config := {
  ui : State;
  pending : list Pending
}.

Definition initialConfig : Config := {| ui := initialState; pending := [] |}.

(** What can happen: the user acts on what the current render shows, or a
    read in flight ends. *)
Inductive Event :=
| OpenChange (newOpen : bool)          (* the trigger, Escape, the overlay *)
| Cancel                               (* "Cancelar", step upload *)
| FileChange (selected : option File)  (* the file input, step upload *)
| SelectName (column : jsstring)       (* the selects, step map *)
| SelectPhone (column : jsstring)
| BackToUpload                         (* "Voltar", step map *)
| Continue                             (* "Continuar", step map *)
| BackToMap                            (* "Voltar", step preview *)
| ConfirmImport                        (* "Importar Contatos", step preview *)
| DirectChange (value : jsstring)      (* the textarea of the direct tab *)
| DirectSend                           (* "Enviar Mensagem" *)
| ReadLoaded (i : nat)                 (* the i-th read in flight succeeds *)
| ReadError (i : nat).                 (* it fails *)

Definition isStep (a b : Step) : bool :=
  match a, b with
  | Upload, Upload | Map, Map | Preview, Preview | Confirm, Confirm => true
  | _, _ => false
  end.

Fixpoint removeAt {A} (i : nat) (l : list A) : list A :=
  match i, l with
  | _, [] => []
  | O, _ :: l' => l'
  | S k, x :: l' => x :: removeAt k l'
  end.

Definition finish (c : Config) (o : Outcome) : option (Config * list Effect) :=
  Some ({| ui := next o; pending := pending c ++ reads o |}, effects o).

Definition finishRead (c : Config) (i : nat) (o : Outcome)
  : option (Config * list Effect) :=
  Some ({| ui := next o; pending := removeAt i (pending c) ++ reads o |},
        effects o).

Definition only (s : State) : Outcome :=
  {| next := s; effects := []; reads := [] |}.

Section Machine.

Variable toLowerCase : jsstring -> jsstring.

(** One step: [None] when the event cannot happen in [c], because the control
    is not rendered at this step or is disabled, the dialog is closed, or
    there is no such read in flight. *)
Definition fire (ev : Event) (c : Config) : option (Config * list Effect) :=
  let s := ui c in
  match ev with
  | OpenChange newOpen => finish c (only (openChange s newOpen))
  | Cancel =>
      if open s && isStep (step s) Upload
      then finish c (only (setOpen false s)) else None
  | FileChange selected =>
      if open s && isStep (step s) Upload && negb (isProcessing s)
      then finish c (handleFileChange s s selected) else None
  | SelectName column =>
      if open s && isStep (step s) Map
      then finish c (only (setNameColumn (Some column) s)) else None
  | SelectPhone column =>
      if open s && isStep (step s) Map
      then finish c (only (setPhoneColumn (Some column) s)) else None
  | BackToUpload =>
      if open s && isStep (step s) Map
      then finish c (only (setStep Upload s)) else None
  | Continue =>
      if open s && isStep (step s) Map && chosen (nameColumn s)
         && chosen (phoneColumn s) && negb (isProcessing s)
      then finish c (validateAndMapContacts s s) else None
  | BackToMap =>
      if open s && isStep (step s) Preview
      then finish c (only (setStep Map s)) else None
  | ConfirmImport =>
      if open s && isStep (step s) Preview
         && negb (length (filter isValid (contacts s)) =? 0)
      then finish c (handleConfirm s s) else None
  | DirectChange value =>
      if open s then finish c (directChange s value) else None
  | DirectSend =>
      if open s && negb (length (filter isValid (contacts s)) =? 0)
      then finish c (directSend s s) else None
  | ReadLoaded i =>
      match nth_error (pending c) i with
      | Some (ReadForPreview r csvFile) =>
          finishRead c i (previewLoaded toLowerCase r s (joinChunks csvFile))
      | Some (ReadForMapping r f) =>
          finishRead c i (mappingLoaded r s (fileText f))
      | None => None
      end
  | ReadError i =>
      match nth_error (pending c) i with
      | Some _ => finishRead c i (readFailed s)
      | None => None
      end
  end.

(** The configurations the component can be in. *)
Inductive reachable : Config -> Prop :=
| reachable_init : reachable initialConfig
| reachable_step c ev c' eff :
    reachable c -> fire ev c = Some (c', eff) -> reachable c'.

End Machine.

(** The counts of the preview step, lines 477-478. *)
Definition validCount (s : State) : nat := length (filter isValid (contacts s)).

Definition invalidCount (s : State) : nat := length (contacts s) - validCount s.

(** The [disabled] attribute of the two import buttons, lines 578 and 658. *)
Definition importDisabled (s : State) : bool :=
  length (filter isValid (contacts s)) =? 0.

End CSVImporter.

Import CSVImporter.

(* ================================================================== *)
(** ** RichTextEditor.tsx: formatText *)
(* ================================================================== *)

Module RichTextEditor.

(** What [formatText] reads of the textarea it finds in the document. *)
Record TextArea := {
  selectionStart : nat;
  selectionEnd : nat
}.

(** [formatText(formatter)] on the [value] of the editor: the argument it
    passes to [onChange], or [None] when it returns without calling it.
    [textarea] is the result of [document.querySelector('textarea')] and
    [url] what [prompt] returns, [None] for [null]. *)
Definition formatText (value : jsstring) (textarea : option TextArea)
  (url : option jsstring) (formatter : jsstring) : option jsstring :=
  match textarea with
  | None => None
  | Some ta =>
      let start := selectionStart ta in
      let end_ := selectionEnd ta in
      let selectedText := substring value start end_ in
      let formattedText : option jsstring :=
        if strEq formatter (lit "bold")
        then Some (lit "*" ++ selectedText ++ lit "*")
        else if strEq formatter (lit "italic")
        then Some (lit "_" ++ selectedText ++ lit "_")
        else if strEq formatter (lit "strikethrough")
        then Some (lit "~" ++ selectedText ++ lit "~")
        else if strEq formatter (lit "link")
        then match url with
             | Some (c :: u) =>
                 match selectedText with
                 | [] => Some (c :: u)
                 | _ :: _ =>
                     Some (lit "[" ++ selectedText ++ lit "](" ++ (c :: u)
                           ++ lit ")")
                 end
             | _ => None
             end
        else None in
      match formattedText with
      | None => None
      | Some formatted =>
          Some (substring value 0 start ++ formatted ++ substringFrom value end_)
      end
  end.

(** The [switch] of [formatText] on its own: the text that replaces the
    selection, [None] where the function returns before [onChange]. *)
Definition formattedText (selectedText : jsstring) (url : option jsstring)
  (formatter : jsstring) : option jsstring :=
  if strEq formatter (lit "bold")
  then Some (lit "*" ++ selectedText ++ lit "*")
  else if strEq formatter (lit "italic")
  then Some (lit "_" ++ selectedText ++ lit "_")
  else if strEq formatter (lit "strikethrough")
  then Some (lit "~" ++ selectedText ++ lit "~")
  else if strEq formatter (lit "link")
  then match url with
       | Some (c :: u) =>
           match selectedText with
           | [] => Some (c :: u)
           | _ :: _ =>
               Some (lit "[" ++ selectedText ++ lit "](" ++ (c :: u)
                     ++ lit ")")
           end
       | _ => None
       end
  else None.

(** Lines 72-78: the position [formatText] gives to both ends of the selection
    once the value is replaced, [start + formattedText.length]. *)
Definition formatTextCaret (value : jsstring) (textarea : option TextArea)
  (url : option jsstring) (formatter : jsstring) : option nat :=
  match textarea with
  | None => None
  | Some ta =>
      match formattedText
              (substring value (selectionStart ta) (selectionEnd ta))
              url formatter with
      | None => None
      | Some formatted => Some (selectionStart ta + length formatted)
      end
  end.

(** [addEmoji(emoji)]: the argument of [onChange], for [emoji.native]. *)
Definition addEmoji (value native : jsstring) : jsstring := value ++ native.

(** [insertVariable(variable)]: the argument of [onChange] and the position
    given to [setSelectionRange], or [None] without a textarea. *)
Definition insertVariable (value : jsstring) (textarea : option TextArea)
  (variable : jsstring) : option (jsstring * nat) :=
  match textarea with
  | None => None
  | Some ta =>
      let start := selectionStart ta in
      Some (substring value 0 start ++ variable ++ substringFrom value start,
            start + length variable)
  end.

(** The three variables of the menu. *)
Definition variables : list jsstring :=
  [lit "{{nome}}"; lit "{{data}}"; lit "{{hora}}"].

(** [insertContactMention(contact)], for [contact.name]. *)
Definition insertContactMention (value : jsstring) (textarea : option TextArea)
  (contactName : jsstring) : option (jsstring * nat) :=
  match textarea with
  | None => None
  | Some ta =>
      let start := selectionStart ta in
      let mention := lit "@" ++ contactName in
      Some (substring value 0 start ++ mention ++ substringFrom value start,
            start + length mention)
  end.

(** *** The highlight layer, lines 293-303 *)














End RichTextEditor.

(* ================================================================== *)
(** ** The operations as the specification words them *)
(* ================================================================== *)

(** These definitions follow the sentences of the specification, not the
    code; they are what the code is compared with. *)
Module Claimed.

(** "Strip every non-digit character; if the resulting digit string's length
    is <= 12 and it does not already start with the prefix 55, prepend the
    prefix.  Mark isValid = true iff the final digit string's length is
    >= 12." *)
Definition normalizePhone (raw : jsstring) : jsstring * bool :=
  let digits := filter isDigit raw in
  let final :=
    if (length digits <=? 12) && negb (startsWith (lit "55") digits)
    then lit "55" ++ digits else digits in
  (final, 12 <=? length final).

(** "For each non-empty trimmed line, strips non-digits to get a number; sets
    name equal to the raw digit string; prepends the 55 prefix only if not
    already present; marks isValid = true iff digit length >= 10." *)
Definition mapDirectInput (text : jsstring) : list ContactImport :=
  map (fun line =>
         let digits := filter isDigit line in
         {| name := digits;
            phoneNumber := if startsWith (lit "55") digits then digits
                           else lit "55" ++ digits;
            isValid := 10 <=? length digits |})
      (filter (fun line => 0 <? length line) (map trim (split [10%N] text))).

(** "Checks for exact match against a fixed list of known labels or substring
    containment of any of those labels." *)
Definition nameLabels : list jsstring :=
  [lit "nome"; lit "name"; lit "cliente"; lit "contato"].

Definition phoneLabels : list jsstring :=
  [lit "telefone"; lit "phone"; lit "celular"; lit "whatsapp"; lit "numero";
   lit "number"; lit "tel"].

Definition matchesLabels (toLowerCase : jsstring -> jsstring)
  (labels : list jsstring) (h : jsstring) : bool :=
  let normalized := trim (toLowerCase h) in
  existsb (fun l => strEq normalized l || includes l normalized) labels.

Definition guessColumn (toLowerCase : jsstring -> jsstring)
  (labels : list jsstring) (headers : list jsstring) : Z :=
  findIndex (matchesLabels toLowerCase labels) headers.

(** The order of the steps, and the forward transitions of the table:
    upload to map, map to preview, preview to confirm. *)
Definition rank (s : Step) : nat :=
  match s with
  | Upload => 0
  | Map => 1
  | Preview => 2
  | Confirm => 3
  end.

Definition forwardInTable (a b : Step) : bool :=
  match a, b with
  | Upload, Map | Map, Preview | Preview, Confirm => true
  | _, _ => false
  end.

End Claimed.

(* ================================================================== *)
(** ** Vocabulary of the statements *)
(* ================================================================== *)

Module Props.

(** The number of code units of [s] equal to [c]. *)
Definition occurrences (c : codeUnit) (s : jsstring) : nat :=
  length (filter (N.eqb c) s).
Arguments occurrences c%_N s.

(** [l] occurs as a contiguous part of [s]. *)
Definition occursWithin (l s : jsstring) : Prop :=
  exists pre post, s = pre ++ l ++ post.

(** A normalised header equals one of the labels [exact] or contains one of
    the labels [within]. *)
Definition recognised (exact within : list jsstring) (normalized : jsstring)
  : Prop :=
  In normalized exact \/ exists l, In l within /\ occursWithin l normalized.

(** [r] is the index of the first element of [l] with [P], or [-1] when there
    is none. *)
Definition firstIndexWhere {A} (P : A -> Prop) (l : list A) (r : Z) : Prop :=
  (r = (-1)%Z /\ Forall (fun x => ~ P x) l) \/
  (exists i x, r = Z.of_nat i /\ nth_error l i = Some x /\ P x /\
               forall j y, j < i -> nth_error l j = Some y -> ~ P y).

(** The labels looked for as a part of the header: two of the four name
    labels and four of the seven phone labels. *)
Definition nameContained : list jsstring := [lit "nome"; lit "name"].

Definition phoneContained : list jsstring :=
  [lit "telefone"; lit "phone"; lit "celular"; lit "whatsapp"].

(** A column selection names one of the headers. *)
Definition occursIn (column : option jsstring) (headers : list jsstring) : Prop :=
  exists c, column = Some c /\ In c headers.

(** Every code unit is an ASCII digit. *)
Definition allDigits (s : jsstring) : bool := forallb isDigit s.

(** A read of [validateAndMapContacts] is only in flight for a render in
    which both columns were chosen. *)
Definition pendingChosen (p : Pending) : Prop :=
  match p with
  | ReadForPreview _ _ => True
  | ReadForMapping r _ =>
      chosen (nameColumn r) = true /\ chosen (phoneColumn r) = true
  end.

(** The ways in which one event takes the step of [c] to that of [c']. *)
Inductive StepChange (c : Config) (ev : Event) (c' : Config) : Prop :=
| Stays :
    step (ui c') = step (ui c) -> StepChange c ev c'
| ToPreviewByMapping (i : nat) (r : State) (f : File)
    (mapped : list ContactImport) :
    ev = ReadLoaded i ->
    nth_error (pending c) i = Some (ReadForMapping r f) ->
    chosen (nameColumn r) = true -> chosen (phoneColumn r) = true ->
    mapContacts (nameColumn r) (phoneColumn r) (fileText f) = Ok mapped ->
    contacts (ui c') = mapped ->
    step (ui c') = Preview -> StepChange c ev c'
| ToPreviewByPaste (value : jsstring) :
    ev = DirectChange value ->
    mapDirectInput value <> [] ->
    contacts (ui c') = mapDirectInput value ->
    step (ui c') = Preview -> StepChange c ev c'
| BackFromPreview :
    ev = BackToMap -> step (ui c) = Preview -> step (ui c') = Map ->
    StepChange c ev c'
| BackFromMap :
    ev = BackToUpload -> step (ui c) = Map -> step (ui c') = Upload ->
    StepChange c ev c'
| ToUploadByClose :
    ev = OpenChange false -> step (ui c') = Upload -> StepChange c ev c'
| ToUploadByImport :
    ev = ConfirmImport \/ ev = DirectSend ->
    filter isValid (contacts (ui c)) <> [] ->
    step (ui c') = Upload -> StepChange c ev c'.

(** [pieces.join(sep)] *)
Fixpoint join (sep : jsstring) (pieces : list jsstring) : jsstring :=
  match pieces with
  | [] => []
  | [p] => p
  | p :: rest => p ++ sep ++ join sep rest
  end.


(** The contacts of a batch obey the validity rule of one of the two paths:
    a valid contact has a phone number of at least ten code units. *)
Definition validLongEnough (c : ContactImport) : Prop :=
  isValid c = true -> 10 <= length (phoneNumber c).




(** The byte-order mark, U+FEFF. *)
Definition mark : codeUnit := 65279%N.

(** [b] put in front of the first of the pieces. *)
Definition consHead (b : codeUnit) (pieces : list jsstring) : list jsstring :=
  match pieces with
  | h :: t => (b :: h) :: t
  | [] => []
  end.

End Props.
Import Props.

(* ================================================================== *)
(** ** Facts about the string and array primitives *)
(* ================================================================== *)

Section Primitives.

Lemma strEq_true_iff (a b : jsstring) : strEq a b = true <-> a = b.
Proof.
  revert b; induction a as [|x a IH]; intros [|y b]; simpl;
    try (split; [discriminate | discriminate]); try tauto.
  rewrite andb_true_iff, N.eqb_eq, IH.
  split; [intros [-> ->]; reflexivity | intros H; inversion H; auto].
Qed.

Lemma strEq_refl (a : jsstring) : strEq a a = true.
Proof. apply strEq_true_iff; reflexivity. Qed.

Lemma startsWith_true_iff (p s : jsstring) :
  startsWith p s = true <-> exists t, s = p ++ t.
Proof.
  revert s; induction p as [|x p IH]; intros s; simpl.
  - split; [intros _; exists s; reflexivity | reflexivity].
  - destruct s as [|y s].
    + split; [discriminate | intros [t Ht]; discriminate].
    + rewrite andb_true_iff, N.eqb_eq, IH. split.
      * intros [-> [t ->]]. exists t; reflexivity.
      * intros [t Ht]. inversion Ht; subst. split; [reflexivity | exists t; reflexivity].
Qed.

Lemma includes_true_iff (p s : jsstring) :
  includes p s = true <-> occursWithin p s.
Proof.
  unfold occursWithin. induction s as [|c s IH].
  - simpl. rewrite orb_false_r, startsWith_true_iff. split.
    + intros [t Ht]. exists [], t. exact Ht.
    + intros [pre [post H]]. destruct pre; [exists post; exact H | discriminate].
  - simpl. rewrite orb_true_iff, startsWith_true_iff, IH. split.
    + intros [[t Ht] | [pre [post H]]].
      * exists [], t. exact Ht.
      * exists (c :: pre), post. simpl. rewrite H. reflexivity.
    + intros [[|d pre] [post H]].
      * left. exists post. exact H.
      * right. simpl in H. inversion H; subst. exists pre, post. reflexivity.
Qed.

Lemma findIndexFrom_spec {A} (p : A -> bool) (l : list A) (k : nat) :
  firstIndexWhere (fun x => p x = true) l
    (if (findIndexFrom p (Z.of_nat k) l =? -1)%Z then (-1)%Z
     else (findIndexFrom p (Z.of_nat k) l - Z.of_nat k)%Z)
  /\ (findIndexFrom p (Z.of_nat k) l = (-1)%Z
      \/ (Z.of_nat k <= findIndexFrom p (Z.of_nat k) l)%Z).
Proof.
  revert k; induction l as [|x l IH]; intros k; simpl.
  - split; [left; split; [reflexivity | constructor] | left; reflexivity].
  - destruct (p x) eqn:Hx.
    + split; [| right; lia].
      replace (Z.of_nat k =? -1)%Z with false by (symmetry; apply Z.eqb_neq; lia).
      right. exists 0, x. repeat split; try lia; auto.
    + replace (Z.of_nat k + 1)%Z with (Z.of_nat (S k)) by lia.
      destruct (IH (S k)) as [IH1 IH2]. split.
      * destruct (findIndexFrom p (Z.of_nat (S k)) l =? -1)%Z eqn:E.
        -- destruct IH1 as [[_ Hall] | (i & y & Hr & _)].
           ++ left. split; [reflexivity |].
              constructor; [rewrite Hx; discriminate | exact Hall].
           ++ lia.
        -- destruct IH1 as [[Hr _] | (i & y & Hr & Hn & Hp & Hlt)].
           ++ apply Z.eqb_neq in E. destruct IH2 as [H2 | H2]; [contradiction | lia].
           ++ right. exists (S i), y. repeat split; auto; try lia.
              intros [|j] z Hj Hz; simpl in Hz.
              ** inversion Hz; subst. rewrite Hx; discriminate.
              ** apply (Hlt j); [lia | exact Hz].
      * destruct IH2 as [-> | Hle]; [left; reflexivity | right; lia].
Qed.

Lemma findIndex_spec {A} (p : A -> bool) (l : list A) :
  firstIndexWhere (fun x => p x = true) l (findIndex p l).
Proof.
  destruct (findIndexFrom_spec p l 0) as [H _]. unfold findIndex.
  change (Z.of_nat 0) with 0%Z in H.
  destruct (findIndexFrom p 0 l =? -1)%Z eqn:E.
  - apply Z.eqb_eq in E. rewrite E. exact H.
  - rewrite Z.sub_0_r in H. exact H.
Qed.

End Primitives.

(* ================================================================== *)
(** ** RichTextEditor: the formatting operations *)
(* ================================================================== *)

Section Substring.

Lemma firstn_min_length {A} (n : nat) (l : list A) :
  firstn (Nat.min n (length l)) l = firstn n l.
Proof.
  destruct (Nat.le_ge_cases n (length l)) as [H | H].
  - rewrite Nat.min_l by exact H. reflexivity.
  - rewrite Nat.min_r by exact H.
    rewrite !firstn_all2; auto.
Qed.

Lemma skipn_min_length {A} (n : nat) (l : list A) :
  skipn (Nat.min n (length l)) l = skipn n l.
Proof.
  destruct (Nat.le_ge_cases n (length l)) as [H | H].
  - rewrite Nat.min_l by exact H. reflexivity.
  - rewrite Nat.min_r by exact H.
    rewrite !skipn_all2; auto.
Qed.

Lemma substring_prefix (s : jsstring) (a : nat) :
  substring s 0 a = firstn a s.
Proof.
  unfold substring. simpl Nat.min at 1.
  rewrite Nat.min_0_l, Nat.max_0_l, Nat.sub_0_r. simpl skipn.
  apply firstn_min_length.
Qed.

Lemma substring_ordered (s : jsstring) (a b : nat) :
  a <= b -> substring s a b = skipn a (firstn b s).
Proof.
  intros Hab. unfold substring.
  rewrite skipn_firstn_comm.
  destruct (Nat.le_ge_cases (length s) a) as [H | H].
  - rewrite (skipn_all2 s H), firstn_nil.
    replace (Nat.min (Nat.min a (length s)) (Nat.min b (length s)))
      with (length s) by lia.
    rewrite skipn_all. apply firstn_nil.
  - replace (Nat.min (Nat.min a (length s)) (Nat.min b (length s)))
      with a by lia.
    replace (Nat.max (Nat.min a (length s)) (Nat.min b (length s)))
      with (Nat.min b (length s)) by lia.
    destruct (Nat.le_ge_cases b (length s)) as [Hb | Hb].
    + rewrite Nat.min_l by exact Hb. reflexivity.
    + rewrite Nat.min_r by exact Hb.
      rewrite !firstn_all2; auto; rewrite length_skipn; lia.
Qed.

Lemma substringFrom_suffix (s : jsstring) (a : nat) :
  substringFrom s a = skipn a s.
Proof.
  unfold substringFrom.
  destruct (Nat.le_ge_cases a (length s)) as [H | H].
  - rewrite substring_ordered by exact H. rewrite firstn_all. reflexivity.
  - rewrite (skipn_all2 s H). unfold substring.
    replace (Nat.min (Nat.min a (length s)) (Nat.min (length s) (length s)))
      with (length s) by lia.
    rewrite skipn_all. apply firstn_nil.
Qed.

End Substring.

Import RichTextEditor.

(** C10. For every editor value and every selection [start <= end], the bold,
    italic and strikethrough operations pass to [onChange] the value made of
    the text before [start], the marker, the selected text, the marker again
    and the text from [end] on: only the selection is wrapped, in [*], [_] or
    [~], and the text on both sides is unchanged. *)
Theorem formatText_wraps_selection
  (value : jsstring) (start end_ : nat) (url : option jsstring)
  (formatter marker : jsstring) :
  start <= end_ ->
  In (formatter, marker)
     [(lit "bold", lit "*"); (lit "italic", lit "_");
      (lit "strikethrough", lit "~")] ->
  formatText value
    (Some {| selectionStart := start; selectionEnd := end_ |}) url formatter
  = Some (firstn start value ++ marker ++ skipn start (firstn end_ value)
          ++ marker ++ skipn end_ value).
Proof.
  intros Hse Hin. unfold formatText. cbn [selectionStart selectionEnd].
  rewrite substring_prefix, substring_ordered, substringFrom_suffix by exact Hse.
  destruct Hin as [E | [E | [E | []]]]; inversion E; subst; clear E;
    cbn -[firstn skipn]; rewrite <- ?app_assoc; reflexivity.
Qed.

Lemma formatText_wraps_selection_witness :
  formatText (lit "ola mundo cruel")
    (Some {| selectionStart := 4; selectionEnd := 9 |}) None (lit "bold")
  = Some (lit "ola *mundo* cruel").
Proof.
  apply (formatText_wraps_selection (lit "ola mundo cruel") 4 9 None
           (lit "bold") (lit "*")).
  - lia.
  - simpl. left. reflexivity.
Defined.

(* ================================================================== *)
(** ** CSVImporter: the direct-input mapper *)
(* ================================================================== *)

Section DirectInput.

Lemma whiteSpace_not_digit (c : codeUnit) :
  isWhiteSpace c = true -> isDigit c = false.
Proof.
  unfold isWhiteSpace, isDigit. intros H.
  destruct (48 <=? c)%N eqn:E1; [| reflexivity].
  destruct (c <=? 57)%N eqn:E2; [| reflexivity].
  apply N.leb_le in E1, E2.
  repeat (apply orb_true_iff in H; destruct H as [H | H]);
    try (apply andb_true_iff in H; destruct H as [H1 H2];
         apply N.leb_le in H1, H2; lia);
    apply N.eqb_eq in H; lia.
Qed.

Lemma digitsOnly_trimStart (s : jsstring) :
  digitsOnly (trimStart s) = digitsOnly s.
Proof.
  induction s as [|c s IH]; [reflexivity |].
  simpl. destruct (isWhiteSpace c) eqn:E; [| reflexivity].
  rewrite (whiteSpace_not_digit c E). exact IH.
Qed.

Lemma digitsOnly_trim (s : jsstring) : digitsOnly (trim s) = digitsOnly s.
Proof.
  unfold trim, trimEnd, digitsOnly.
  rewrite filter_rev. fold (digitsOnly (trimStart (rev (trimStart s)))).
  rewrite digitsOnly_trimStart. unfold digitsOnly.
  rewrite filter_rev, rev_involutive.
  apply digitsOnly_trimStart.
Qed.

Lemma digitsOnly_allDigits (s : jsstring) : allDigits (digitsOnly s) = true.
Proof.
  unfold allDigits, digitsOnly. apply forallb_forall.
  intros c Hc. apply filter_In in Hc. tauto.
Qed.

Lemma directNumbers_eq (text : jsstring) :
  directNumbers text
  = filter (fun n => 0 <? length n) (map digitsOnly (split [10%N] text)).
Proof.
  unfold directNumbers. f_equal.
  apply map_ext. intros l. apply digitsOnly_trim.
Qed.

Lemma allDigits_app (a b : jsstring) :
  allDigits (a ++ b) = allDigits a && allDigits b.
Proof. unfold allDigits. apply forallb_app. Qed.

(** On the direct-input path every phone number is made of ASCII digits. *)
Lemma direct_phone_allDigits (text : jsstring) :
  Forall (fun c => allDigits (phoneNumber c) = true) (mapDirectInput text).
Proof.
  unfold mapDirectInput. apply Forall_forall. intros c Hc.
  apply in_map_iff in Hc. destruct Hc as [n [<- Hn]].
  rewrite directNumbers_eq in Hn. apply filter_In in Hn. destruct Hn as [Hn _].
  apply in_map_iff in Hn. destruct Hn as [l [<- _]].
  unfold directContact. cbn [phoneNumber].
  destruct (startsWith (lit "55") (digitsOnly l)).
  - apply digitsOnly_allDigits.
  - rewrite allDigits_app, digitsOnly_allDigits. reflexivity.
Qed.

End DirectInput.

(** C3, as amended. For every pasted text the direct-input mapper produces one
    ContactImport per line whose digit-only string is non-empty, in order (a
    line without a digit yields no record, blank or not): [name] is the
    line's digit-only string, [phoneNumber] is that string with "55" in front
    unless it already starts with "55" (no length condition), and [isValid]
    is true iff the digit string has at least 10 code units.  The text
    "11999998888", newline, "123" yields two records, the first valid and the
    second, with phone number "55123", invalid. *)
Theorem mapDirectInput_per_digit_line (text : jsstring) :
  map name (mapDirectInput text)
  = filter (fun n => 0 <? length n) (map digitsOnly (split [10%N] text))
  /\ Forall (fun c =>
       name c <> [] /\ allDigits (name c) = true /\
       phoneNumber c = (if startsWith (lit "55") (name c) then name c
                        else lit "55" ++ name c) /\
       (isValid c = true <-> 10 <= length (name c)))
     (mapDirectInput text)
  /\ mapDirectInput (lit "11999998888" ++ [10%N] ++ lit "123")
     = [ {| name := lit "11999998888"; phoneNumber := lit "5511999998888";
            isValid := true |};
         {| name := lit "123"; phoneNumber := lit "55123";
            isValid := false |} ].
Proof.
  split; [| split].
  - unfold mapDirectInput. rewrite map_map. cbn [directContact name].
    rewrite map_id. apply directNumbers_eq.
  - unfold mapDirectInput. apply Forall_forall. intros c Hc.
    apply in_map_iff in Hc. destruct Hc as [n [<- Hn]].
    rewrite directNumbers_eq in Hn. apply filter_In in Hn.
    destruct Hn as [Hn Hlen].
    apply in_map_iff in Hn. destruct Hn as [l [<- _]].
    cbn [directContact name phoneNumber isValid].
    repeat split.
    + intros E. rewrite E in Hlen. discriminate.
    + apply digitsOnly_allDigits.
    + intros H. apply Nat.leb_le. exact H.
    + intros H. apply Nat.leb_le. exact H.
  - vm_compute. reflexivity.
Qed.

(** C3, the claim as stated fails: a non-empty trimmed line without a digit
    gives no record, where the claim has one record per such line. *)
Lemma mapDirectInput_skips_digitless_line :
  mapDirectInput (lit "abc") = []
  /\ Claimed.mapDirectInput (lit "abc")
     = [ {| name := []; phoneNumber := lit "55"; isValid := false |} ]
  /\ mapDirectInput (lit "abc") <> Claimed.mapDirectInput (lit "abc").
Proof.
  split; [vm_compute; reflexivity |].
  split; [vm_compute; reflexivity |].
  vm_compute. discriminate.
Qed.

(* ================================================================== *)
(** ** CSVImporter: detectDelimiter *)
(* ================================================================== *)

Section Delimiter.

Lemma countGo_single (c : codeUnit) (s : jsstring) :
  countGo (matchLiteral [c]) 0 s = occurrences c s.
Proof.
  unfold occurrences. induction s as [|d s IH]; [reflexivity |].
  cbn [countGo]. unfold matchLiteral at 1. cbn [startsWith length filter].
  rewrite andb_true_r.
  destruct (N.eqb c d); cbn [length]; rewrite IH; reflexivity.
Qed.

Lemma count_commas (s : jsstring) :
  countMatches (regExp (lit ",")) s = occurrences 44 s.
Proof. apply countGo_single. Qed.

Lemma count_semicolons (s : jsstring) :
  countMatches (regExp (lit ";")) s = occurrences 59 s.
Proof. apply countGo_single. Qed.

Lemma count_tabs (s : jsstring) :
  countMatches (regExp tabLiteral) s = occurrences 9 s.
Proof. apply countGo_single. Qed.

End Delimiter.

(** C4, as amended. For every header line, detectDelimiter counts the commas,
    the semicolons and the tab characters, and a later candidate, in the
    order comma, semicolon, tab, replaces an earlier one only on a strictly
    greater count.  When the tabs do not outnumber both other candidates it
    returns ';' if there are strictly more semicolons than commas and ','
    otherwise: ',' when commas and semicolons tie and when all counts are
    zero, ';' when semicolons and tabs tie above the commas.  A line with
    more semicolons than commas yields ';' provided it has no more tabs than
    semicolons. *)
Theorem detectDelimiter_first_highest (headerLine : jsstring) :
  (countMatches (regExp (lit ",")) headerLine = occurrences 44 headerLine /\
   countMatches (regExp (lit ";")) headerLine = occurrences 59 headerLine /\
   countMatches (regExp tabLiteral) headerLine = occurrences 9 headerLine) /\
  (occurrences 9 headerLine
     <= Nat.max (occurrences 44 headerLine) (occurrences 59 headerLine) ->
   detectDelimiter headerLine
   = if occurrences 44 headerLine <? occurrences 59 headerLine
     then lit ";" else lit ",").
Proof.
  split; [split; [apply count_commas | split; [apply count_semicolons | apply count_tabs]] |].
  intros Htabs. unfold detectDelimiter, delimiters. cbn [fold_left].
  unfold detectStep at 3. cbn [snd]. rewrite count_commas.
  destruct (0 <? occurrences 44 headerLine) eqn:E0;
    unfold detectStep at 2; cbn [snd]; rewrite count_semicolons;
    [apply Nat.ltb_lt in E0 | apply Nat.ltb_ge in E0].
  - destruct (occurrences 44 headerLine <? occurrences 59 headerLine) eqn:E1;
      unfold detectStep; cbn [snd]; rewrite count_tabs;
      [apply Nat.ltb_lt in E1 | apply Nat.ltb_ge in E1].
    + replace (occurrences 59 headerLine <? occurrences 9 headerLine) with false
        by (symmetry; apply Nat.ltb_ge; lia). reflexivity.
    + replace (occurrences 44 headerLine <? occurrences 9 headerLine) with false
        by (symmetry; apply Nat.ltb_ge; lia). reflexivity.
  - replace (occurrences 44 headerLine) with 0 in * by lia.
    destruct (0 <? occurrences 59 headerLine) eqn:E1;
      unfold detectStep; cbn [snd]; rewrite count_tabs;
      [apply Nat.ltb_lt in E1 | apply Nat.ltb_ge in E1].
    + replace (occurrences 59 headerLine <? occurrences 9 headerLine) with false
        by (symmetry; apply Nat.ltb_ge; lia). reflexivity.
    + replace (0 <? occurrences 9 headerLine) with false
        by (symmetry; apply Nat.ltb_ge; lia). reflexivity.
Qed.

Lemma detectDelimiter_first_highest_witness :
  detectDelimiter (lit "Nome;Telefone;Cidade,UF") = lit ";".
Proof.
  apply (proj2 (detectDelimiter_first_highest (lit "Nome;Telefone;Cidade,UF"))).
  vm_compute. lia.
Defined.

(** C4, the claim as stated fails: with one semicolon and one tab the two tie
    for the highest count and the result is ';', not ','; with one semicolon
    and two tabs the line has more semicolons than commas and the result is
    not ';'. *)
Lemma detectDelimiter_tab_ties_and_wins :
  (occurrences 59 (lit ";" ++ [9%N]) = occurrences 9 (lit ";" ++ [9%N]) /\
   occurrences 44 (lit ";" ++ [9%N]) < occurrences 59 (lit ";" ++ [9%N]) /\
   detectDelimiter (lit ";" ++ [9%N]) <> lit ",") /\
  (occurrences 44 (lit ";" ++ [9%N; 9%N]) < occurrences 59 (lit ";" ++ [9%N; 9%N]) /\
   detectDelimiter (lit ";" ++ [9%N; 9%N]) <> lit ";").
Proof.
  repeat split; try (vm_compute; lia); vm_compute; discriminate.
Qed.

(* ================================================================== *)
(** ** CSVImporter: the file-import mapper *)
(* ================================================================== *)

Section FileMapper.

Lemma findIndex_none_iff {A} (p : A -> bool) (l : list A) :
  findIndex p l = (-1)%Z <-> Forall (fun x => p x = false) l.
Proof.
  destruct (findIndex_spec p l) as [[Hr Hall] | (i & x & Hr & Hn & Hp & _)].
  - split; [intros _ | intros _; exact Hr].
    apply Forall_forall. intros x Hx.
    rewrite Forall_forall in Hall. specialize (Hall x Hx).
    destruct (p x); [exfalso; apply Hall; reflexivity | reflexivity].
  - split; [intros E; lia |].
    intros Hall. rewrite Forall_forall in Hall.
    apply nth_error_In in Hn. rewrite (Hall x Hn) in Hp. discriminate.
Qed.

Lemma indexOf_none_iff (l : list jsstring) (x : jsstring) :
  indexOf l x = (-1)%Z <-> ~ In x l.
Proof.
  unfold indexOf. rewrite findIndex_none_iff, Forall_forall. split.
  - intros H Hin. specialize (H x Hin). rewrite strEq_refl in H. discriminate.
  - intros H y Hy. destruct (strEq x y) eqn:E; [| reflexivity].
    apply strEq_true_iff in E. subst. contradiction.
Qed.

Lemma indexOfColumn_none_iff (headers : list jsstring) (column : option jsstring) :
  indexOfColumn headers column = (-1)%Z <-> ~ occursIn column headers.
Proof.
  unfold occursIn. destruct column as [c |]; simpl.
  - rewrite indexOf_none_iff. split.
    + intros H [c' [E Hin]]. inversion E; subst. contradiction.
    + intros H Hin. apply H. exists c. split; [reflexivity | exact Hin].
  - split; [intros _ [c [E _]]; discriminate | reflexivity].
Qed.

Lemma no_match_without_backslash (c : codeUnit) (s : jsstring) :
  N.eqb 92 c = false -> matchLiteral backslash_D (c :: s) = None.
Proof.
  intros E. unfold matchLiteral.
  change backslash_D with [92%N; 68%N]. cbn [startsWith].
  rewrite E. reflexivity.
Qed.

(** A text without a backslash has no match of the pattern of line 289. *)
Lemma splitGo_no_backslash (cur s : jsstring) :
  occurrences 92 s = 0 ->
  splitGo (matchLiteral backslash_D) 0 cur s = [rev cur ++ s].
Proof.
  unfold occurrences. revert cur. induction s as [|c s IH]; intros cur H.
  - simpl. rewrite app_nil_r. reflexivity.
  - cbn [filter] in H. destruct (N.eqb 92 c) eqn:E; [discriminate |].
    cbn [splitGo]. rewrite (no_match_without_backslash c s E).
    rewrite (IH (c :: cur) H). cbn [rev].
    rewrite <- app_assoc. reflexivity.
Qed.

Lemma removeAll_no_backslash (s : jsstring) :
  occurrences 92 s = 0 -> removeAll (matchLiteral backslash_D) s = s.
Proof.
  intros H. unfold removeAll, splitBy.
  rewrite (splitGo_no_backslash [] s H). simpl. apply app_nil_r.
Qed.

(** On a phone field without a backslash nothing is stripped at all: the
    prefix and the validity are decided on the field as it is. *)
Lemma normalizePhone_no_backslash (raw : jsstring) :
  occurrences 92 raw = 0 ->
  normalizePhone raw
  = (if (length raw <=? 12) && negb (startsWith (lit "55") raw)
     then (lit "55" ++ raw, 12 <=? length (lit "55" ++ raw))
     else (raw, 12 <=? length raw)).
Proof.
  intros H. unfold normalizePhone. rewrite (removeAll_no_backslash raw H).
  destruct ((length raw <=? 12) && negb (startsWith (lit "55") raw));
    reflexivity.
Qed.

Lemma allDigits_no_backslash (raw : jsstring) :
  allDigits raw = true -> occurrences 92 raw = 0 /\ filter isDigit raw = raw.
Proof.
  unfold allDigits, occurrences.
  induction raw as [|c raw IH]; cbn [forallb filter].
  - intros _. split; reflexivity.
  - intros H. apply andb_true_iff in H. destruct H as [Hc Hraw].
    destruct (IH Hraw) as [IH1 IH2]. rewrite Hc, IH2.
    split; [| reflexivity].
    destruct (N.eqb 92 c) eqn:E; [| exact IH1].
    apply N.eqb_eq in E. subst c. discriminate Hc.
Qed.

(** On a phone field made of digits only the code does what the
    specification says. *)
Lemma normalizePhone_on_digits (raw : jsstring) :
  allDigits raw = true ->
  CSVImporter.normalizePhone raw = Claimed.normalizePhone raw.
Proof.
  intros H. destruct (allDigits_no_backslash raw H) as [Hb Hf].
  rewrite (normalizePhone_no_backslash raw Hb).
  unfold Claimed.normalizePhone. rewrite Hf.
  destruct ((length raw <=? 12) && negb (startsWith (lit "55") raw));
    reflexivity.
Qed.

Lemma findIndexFrom_range {A} (p : A -> bool) (l : list A) (k : Z) :
  findIndexFrom p k l = (-1)%Z \/ (k <= findIndexFrom p k l)%Z.
Proof.
  revert k. induction l as [|x l IH]; intros k; simpl.
  - left. reflexivity.
  - destruct (p x); [right; lia |].
    destruct (IH (k + 1)%Z) as [-> | H]; [left; reflexivity | right; lia].
Qed.

Lemma indexOfColumn_range (hs : list jsstring) (column : option jsstring) :
  indexOfColumn hs column = (-1)%Z \/ (0 <= indexOfColumn hs column)%Z.
Proof.
  destruct column as [c |]; [| left; reflexivity].
  apply (findIndexFrom_range (strEq c) hs 0).
Qed.

(** A row that is not skipped has a value at both indices: [values[i]] is
    never [undefined] there, and [nth] reads what the source reads. *)
Lemma mapRow_in_range (delimiter : jsstring) (nameIndex phoneIndex : Z)
  (line : jsstring) (c : ContactImport) :
  (0 <= nameIndex)%Z -> (0 <= phoneIndex)%Z ->
  mapRow delimiter nameIndex phoneIndex line = Some c ->
  at_ (splitRow delimiter line) nameIndex = Some (name c)
  /\ exists raw, at_ (splitRow delimiter line) phoneIndex = Some raw
               /\ normalizePhone raw = (phoneNumber c, isValid c).
Proof.
  intros Hn Hp. unfold mapRow.
  destruct (negb (0 <? length (trim line))); [discriminate |].
  cbv zeta.
  destruct (Z.of_nat (length (splitRow delimiter line))
            <=? Z.max nameIndex phoneIndex)%Z eqn:E; [discriminate |].
  apply Z.leb_gt in E.
  destruct (normalizePhone (nth (Z.to_nat phoneIndex)
                              (splitRow delimiter line) [])) as [ph v] eqn:En.
  intros H. injection H as <-. cbn [name phoneNumber isValid].
  unfold at_.
  replace (nameIndex <? 0)%Z with false by (symmetry; apply Z.ltb_ge; lia).
  replace (phoneIndex <? 0)%Z with false by (symmetry; apply Z.ltb_ge; lia).
  split.
  - apply nth_error_nth'. lia.
  - exists (nth (Z.to_nat phoneIndex) (splitRow delimiter line) []).
    split; [apply nth_error_nth'; lia | exact En].
Qed.

End FileMapper.

(** C1. The claim fails on the code at a phone field with a non-digit: the
    pattern of line 289 is written with a doubled backslash and matches a
    backslash followed by [D], not a non-digit, so the field
    "(11) 99999-8888" keeps its parentheses, blank and hyphen, is not given
    the prefix (its 15 code units exceed 12) and counts as valid, where the
    rule of the specification gives the phone number "5511999998888".  The
    last part runs the whole mapper on a text whose two lines are separated
    the way line 249 splits them.  On fields made of digits only the code
    follows the rule, see [normalizePhone_on_digits]. *)
Lemma file_phone_keeps_non_digits :
  CSVImporter.normalizePhone (lit "(11) 99999-8888")
  = (lit "(11) 99999-8888", true)
  /\ Claimed.normalizePhone (lit "(11) 99999-8888")
     = (lit "5511999998888", true)
  /\ mapContacts (Some (lit "Nome")) (Some (lit "Telefone"))
       (lit "Nome,Telefone\\nAna,(11) 99999-8888")
     = Ok [ {| name := lit "Ana"; phoneNumber := lit "(11) 99999-8888";
               isValid := true |} ].
Proof. repeat split; vm_compute; reflexivity. Qed.

(** C5. The invariant fails on the file path, by the same pattern of line
    289: after the mapping handler has run on the text above, the batch of
    the state holds one contact, which is valid and whose phone number is
    not made of digits only.  On the direct-input path the invariant holds,
    see [direct_phone_allDigits]. *)
Lemma file_batch_phone_not_all_digits :
  let r := setPhoneColumn (Some (lit "Telefone"))
             (setNameColumn (Some (lit "Nome")) initialState) in
  let s' := next (mappingLoaded r r
                    (lit "Nome,Telefone\\nAna,(11) 99999-8888")) in
  step s' = Preview
  /\ map (fun c => (isValid c, allDigits (phoneNumber c))) (contacts s')
     = [(true, false)].
Proof. split; vm_compute; reflexivity. Qed.

(* ================================================================== *)
(** ** CSVImporter: a missing column *)
(* ================================================================== *)

(** C6. When the text read has a header line and the selected name column or
    the selected phone column is not one of its headers, the mapping fails
    with the column-not-found error; the handler emits the notification
    "Erro ao processar contatos" and nothing else, starts no read, and leaves
    the contact batch and the step as they were: the state only has
    [isProcessing] set to false. *)
Theorem missing_column_leaves_batch
  (r s : State) (csv line0 : jsstring) (rest : list jsstring) :
  splitLines csv = line0 :: rest ->
  ~ occursIn (nameColumn r) (mapHeaders line0)
  \/ ~ occursIn (phoneColumn r) (mapHeaders line0) ->
  mapContacts (nameColumn r) (phoneColumn r) csv = Throw ColumnsNotFound
  /\ effects (mappingLoaded r s csv) = [Toast ErroAoProcessarContatos]
  /\ reads (mappingLoaded r s csv) = []
  /\ next (mappingLoaded r s csv) = setIsProcessing false s
  /\ contacts (next (mappingLoaded r s csv)) = contacts s
  /\ step (next (mappingLoaded r s csv)) = step s.
Proof.
  intros Hlines Hmissing.
  assert (E : mapContacts (nameColumn r) (phoneColumn r) csv
              = Throw ColumnsNotFound).
  { unfold mapContacts. rewrite Hlines. cbv zeta.
    replace ((indexOfColumn (mapHeaders line0) (nameColumn r) =? -1)%Z
             || (indexOfColumn (mapHeaders line0) (phoneColumn r) =? -1)%Z)
      with true; [reflexivity |].
    symmetry. apply orb_true_iff.
    destruct Hmissing as [H | H]; [left | right];
      apply Z.eqb_eq, indexOfColumn_none_iff; exact H. }
  unfold mappingLoaded. rewrite E. cbn [effects reads next].
  repeat split; reflexivity.
Qed.

Lemma missing_column_leaves_batch_witness :
  let r := setPhoneColumn (Some (lit "Telefone"))
             (setNameColumn (Some (lit "Cliente")) initialState) in
  let csv := lit "Nome,Telefone\\nAna,11999998888" in
  mapContacts (nameColumn r) (phoneColumn r) csv = Throw ColumnsNotFound
  /\ effects (mappingLoaded r r csv) = [Toast ErroAoProcessarContatos]
  /\ reads (mappingLoaded r r csv) = []
  /\ next (mappingLoaded r r csv) = setIsProcessing false r
  /\ contacts (next (mappingLoaded r r csv)) = contacts r
  /\ step (next (mappingLoaded r r csv)) = step r.
Proof.
  intros r csv.
  apply (missing_column_leaves_batch r r csv
           (lit "Nome,Telefone") [lit "Ana,11999998888"]).
  - vm_compute. reflexivity.
  - left. intros [c [E Hin]]. vm_compute in E. inversion E; subst c.
    vm_compute in Hin. destruct Hin as [H | [H | []]]; discriminate H.
Defined.

(* ================================================================== *)
(** ** CSVImporter: the column guess of processCSV *)
(* ================================================================== *)

Section Guess.

Variable toLowerCase : jsstring -> jsstring.

Lemma firstIndexWhere_ext {A} (P Q : A -> Prop) (l : list A) (r : Z) :
  (forall x, P x <-> Q x) -> firstIndexWhere P l r -> firstIndexWhere Q l r.
Proof.
  intros HPQ [[Hr Hall] | (i & x & Hr & Hn & Hp & Hlt)].
  - left. split; [exact Hr |].
    eapply Forall_impl; [| exact Hall]. intros a Ha Hq. apply Ha, HPQ, Hq.
  - right. exists i, x. repeat split; auto.
    + apply HPQ, Hp.
    + intros j y Hj Hy Hq. apply (Hlt j y Hj Hy), HPQ, Hq.
Qed.

Lemma firstIndexWhere_bound {A} (P : A -> Prop) (l : list A) (r : Z)
  (i : nat) (x : A) :
  firstIndexWhere P l r -> nth_error l i = Some x -> P x ->
  (0 <= r <= Z.of_nat i)%Z.
Proof.
  intros [[Hr Hall] | (k & y & Hr & Hn & Hp & Hlt)] Hi Hx.
  - rewrite Forall_forall in Hall.
    exfalso. apply (Hall x); [eapply nth_error_In; exact Hi | exact Hx].
  - destruct (Nat.lt_ge_cases i k) as [Hlt' | Hge]; [| lia].
    exfalso. apply (Hlt i x Hlt' Hi Hx).
Qed.

Ltac split_ors H :=
  repeat match type of H with
         | (_ || _) = true => apply orb_true_iff in H; destruct H as [H | H]
         end.

Lemma isNameHeader_iff (h : jsstring) :
  isNameHeader toLowerCase h = true
  <-> recognised Claimed.nameLabels nameContained (trim (toLowerCase h)).
Proof.
  unfold isNameHeader, recognised. cbv zeta.
  set (n := trim (toLowerCase h)). split.
  - intros H. split_ors H;
      try (apply strEq_true_iff in H; left; rewrite H; simpl; tauto);
      apply includes_true_iff in H; right; eexists; (split; [| exact H]);
      simpl; tauto.
  - intros [Hin | [l [Hin Hw]]].
    + simpl in Hin.
      repeat (destruct Hin as [Hin | Hin];
              [rewrite <- Hin; rewrite strEq_refl; rewrite ?orb_true_r;
               reflexivity |]).
      contradiction.
    + apply includes_true_iff in Hw. simpl in Hin.
      repeat (destruct Hin as [Hin | Hin];
              [rewrite <- Hin in Hw; rewrite Hw; rewrite ?orb_true_r;
               reflexivity |]).
      contradiction.
Qed.

Lemma isPhoneHeader_iff (h : jsstring) :
  isPhoneHeader toLowerCase h = true
  <-> recognised Claimed.phoneLabels phoneContained (trim (toLowerCase h)).
Proof.
  unfold isPhoneHeader, recognised. cbv zeta.
  set (n := trim (toLowerCase h)). split.
  - intros H. split_ors H;
      try (apply strEq_true_iff in H; left; rewrite H; simpl; tauto);
      apply includes_true_iff in H; right; eexists; (split; [| exact H]);
      simpl; tauto.
  - intros [Hin | [l [Hin Hw]]].
    + simpl in Hin.
      repeat (destruct Hin as [Hin | Hin];
              [rewrite <- Hin; rewrite strEq_refl; rewrite ?orb_true_r;
               reflexivity |]).
      contradiction.
    + apply includes_true_iff in Hw. simpl in Hin.
      repeat (destruct Hin as [Hin | Hin];
              [rewrite <- Hin in Hw; rewrite Hw; rewrite ?orb_true_r;
               reflexivity |]).
      contradiction.
Qed.

Lemma nameColumnIndex_spec (hs : list jsstring) :
  firstIndexWhere
    (fun h => recognised Claimed.nameLabels nameContained (trim (toLowerCase h)))
    hs (nameColumnIndex toLowerCase hs).
Proof.
  eapply firstIndexWhere_ext; [| apply findIndex_spec].
  intros h. apply isNameHeader_iff.
Qed.

Lemma phoneColumnIndex_spec (hs : list jsstring) :
  firstIndexWhere
    (fun h => recognised Claimed.phoneLabels phoneContained (trim (toLowerCase h)))
    hs (phoneColumnIndex toLowerCase hs).
Proof.
  eapply firstIndexWhere_ext; [| apply findIndex_spec].
  intros h. apply isPhoneHeader_iff.
Qed.

End Guess.

(** C8, as amended. For every header list, the column guess returns the index
    of the first header, in the original order, whose lower-cased, trimmed
    text equals one of the labels (name: nome, name, cliente, contato; phone:
    telefone, phone, celular, whatsapp, numero, number, tel) or contains one
    of the labels nome, name (name) or telefone, phone, celular, whatsapp
    (phone); it returns -1 when there is none.  The labels cliente, contato,
    numero, number and tel count only as the whole header.  A header that is
    "telefone" once lower-cased is found for the phone, and one that is
    "nome" for the name: the guess is then an index not after it. *)
Theorem guess_first_recognised_header
  (toLowerCase : jsstring -> jsstring) (hs : list jsstring) :
  firstIndexWhere
    (fun h => recognised Claimed.nameLabels nameContained (trim (toLowerCase h)))
    hs (nameColumnIndex toLowerCase hs)
  /\ firstIndexWhere
       (fun h => recognised Claimed.phoneLabels phoneContained
                   (trim (toLowerCase h)))
       hs (phoneColumnIndex toLowerCase hs)
  /\ (forall i h, nth_error hs i = Some h -> toLowerCase h = lit "telefone" ->
        (0 <= phoneColumnIndex toLowerCase hs <= Z.of_nat i)%Z)
  /\ (forall i h, nth_error hs i = Some h -> toLowerCase h = lit "nome" ->
        (0 <= nameColumnIndex toLowerCase hs <= Z.of_nat i)%Z).
Proof.
  split; [apply nameColumnIndex_spec |].
  split; [apply phoneColumnIndex_spec |].
  split; intros i h Hi Hlow.
  - eapply firstIndexWhere_bound;
      [apply phoneColumnIndex_spec | exact Hi |].
    cbv beta. rewrite Hlow. left. vm_compute. tauto.
  - eapply firstIndexWhere_bound;
      [apply nameColumnIndex_spec | exact Hi |].
    cbv beta. rewrite Hlow. left. vm_compute. tauto.
Qed.

Lemma guess_first_recognised_header_witness :
  (0 <= phoneColumnIndex asciiLowerCase [lit "Id"; lit "TELEFONE"] <= 1)%Z
  /\ (0 <= nameColumnIndex asciiLowerCase [lit "Nome"; lit "x"] <= 0)%Z.
Proof.
  split.
  - apply (proj1 (proj2 (proj2 (guess_first_recognised_header asciiLowerCase
             [lit "Id"; lit "TELEFONE"]))) 1 (lit "TELEFONE"));
      vm_compute; reflexivity.
  - apply (proj2 (proj2 (proj2 (guess_first_recognised_header asciiLowerCase
             [lit "Nome"; lit "x"]))) 0 (lit "Nome"));
      vm_compute; reflexivity.
Defined.

(** C8, the claim as stated fails: the header "clientes" contains the label
    cliente, so the claim has it found at index 0, and the code returns -1. *)
Lemma guess_misses_contained_cliente :
  nameColumnIndex asciiLowerCase [lit "clientes"] = (-1)%Z
  /\ Claimed.guessColumn asciiLowerCase Claimed.nameLabels [lit "clientes"]
     = 0%Z.
Proof. split; vm_compute; reflexivity. Qed.

(* ================================================================== *)
(** ** CSVImporter: the column selections after a parse *)
(* ================================================================== *)

Section Selection.

Variable toLowerCase : jsstring -> jsstring.

Lemma splitGo_not_nil (m : jsstring -> option nat) (s : jsstring) :
  forall skip cur, splitGo m skip cur s <> [].
Proof.
  induction s as [|c s IH]; intros skip cur; cbn [splitGo].
  - discriminate.
  - destruct skip as [|k]; [| apply IH].
    destruct (m (c :: s)) as [[|n] |]; try apply IH. discriminate.
Qed.

Lemma splitRow_not_nil (delimiter line : jsstring) :
  splitRow delimiter line <> [].
Proof.
  unfold splitRow, split, splitBy. intros E. apply map_eq_nil in E.
  exact (splitGo_not_nil _ _ _ _ E).
Qed.

(** The column selections do not depend on the render the handler closes
    over: [validateAndMapContacts] only touches [isProcessing]. *)
Lemma validateAndMapContacts_columns (r s : State) :
  nameColumn (next (validateAndMapContacts r s)) = nameColumn s
  /\ phoneColumn (next (validateAndMapContacts r s)) = phoneColumn s
  /\ columns (next (validateAndMapContacts r s)) = columns s
  /\ contacts (next (validateAndMapContacts r s)) = contacts s
  /\ step (next (validateAndMapContacts r s)) = step s.
Proof.
  unfold validateAndMapContacts.
  destruct (negb (chosen (nameColumn r)) || negb (chosen (phoneColumn r)));
    [| destruct (file r)]; repeat split.
Qed.

Lemma at_found {A} (p : A -> bool) (l : list A) :
  findIndex p l <> (-1)%Z ->
  exists x, at_ l (findIndex p l) = Some x /\ In x l /\ p x = true.
Proof.
  intros Hne.
  destruct (findIndex_spec p l) as [[Hr _] | (i & x & Hr & Hn & Hp & _)];
    [contradiction |].
  exists x. rewrite Hr. unfold at_.
  replace (Z.of_nat i <? 0)%Z with false by (symmetry; apply Z.ltb_ge; lia).
  rewrite Nat2Z.id. repeat split; auto. eapply nth_error_In; exact Hn.
Qed.

Lemma isNameHeader_not_empty (h : jsstring) :
  toLowerCase [] = [] -> isNameHeader toLowerCase h = true -> chosen (Some h) = true.
Proof.
  intros Hnil H. destruct h; [| reflexivity].
  unfold isNameHeader in H. rewrite Hnil in H. vm_compute in H. discriminate.
Qed.

Lemma isPhoneHeader_not_empty (h : jsstring) :
  toLowerCase [] = [] -> isPhoneHeader toLowerCase h = true -> chosen (Some h) = true.
Proof.
  intros Hnil H. destruct h; [| reflexivity].
  unfold isPhoneHeader in H. rewrite Hnil in H. vm_compute in H. discriminate.
Qed.

Lemma parseCSV_ok (csv : jsstring) (p : Parsed) :
  parseCSV toLowerCase csv = Ok p ->
  headers p <> []
  /\ selectedName p = selectName toLowerCase (headers p)
  /\ selectedPhone p = selectPhone toLowerCase (headers p).
Proof.
  unfold parseCSV. destruct (splitLines csv) as [|line0 rest];
    [discriminate |].
  cbv zeta. intros Hp. injection Hp as Hp. rewrite <- Hp.
  cbn [headers selectedName selectedPhone].
  split; [apply splitRow_not_nil | split; reflexivity].
Qed.

End Selection.

(** C9, as amended. After a successful parse the header list is not empty and
    is stored as the columns.  When the guess recognises no name column the
    name selection is the first header, and when it recognises no phone
    column the phone selection is what index 1 of the header list holds,
    which is undefined when there are fewer than two headers.  A recognised
    column is selected as it is, and it is a non-empty header (given that
    lower-casing the empty string gives the empty string); a selection taken
    by position can be the empty string or undefined. *)
Theorem selection_after_parse
  (toLowerCase : jsstring -> jsstring) (r s : State) (csv : jsstring)
  (p : Parsed) :
  parseCSV toLowerCase csv = Ok p ->
  let s' := next (previewLoaded toLowerCase r s csv) in
  columns s' = headers p
  /\ (exists h0 t, headers p = h0 :: t /\
        (nameColumnIndex toLowerCase (headers p) = (-1)%Z ->
         nameColumn s' = Some h0))
  /\ (phoneColumnIndex toLowerCase (headers p) = (-1)%Z ->
      phoneColumn s' = nth_error (headers p) 1)
  /\ (toLowerCase [] = [] ->
      nameColumnIndex toLowerCase (headers p) <> (-1)%Z ->
      nameColumn s' = at_ (headers p) (nameColumnIndex toLowerCase (headers p))
      /\ occursIn (nameColumn s') (headers p)
      /\ chosen (nameColumn s') = true)
  /\ (toLowerCase [] = [] ->
      phoneColumnIndex toLowerCase (headers p) <> (-1)%Z ->
      phoneColumn s' = at_ (headers p) (phoneColumnIndex toLowerCase (headers p))
      /\ occursIn (phoneColumn s') (headers p)
      /\ chosen (phoneColumn s') = true).
Proof.
  intros Hp s'. subst s'. unfold previewLoaded. rewrite Hp.
  destruct (validateAndMapContacts_columns r
              (setPhoneColumn (selectedPhone p)
                 (setNameColumn (selectedName p)
                    (setIsProcessing false
                       (setPreviewData (preview p)
                          (setColumns (headers p) s))))))
    as (En & Eph & Ec & _ & _).
  rewrite En, Eph, Ec. cbn [nameColumn phoneColumn columns setPhoneColumn
    setNameColumn setIsProcessing setPreviewData setColumns].
  clear En Eph Ec.
  destruct (parseCSV_ok toLowerCase csv p Hp) as (Hne & -> & ->).
  generalize dependent (headers p). clear Hp. intros hs Hne.
  split; [reflexivity |].
  split.
  { destruct hs as [|h0 t]; [contradiction |].
    exists h0, t. split; [reflexivity |].
    intros Hnone. unfold selectName. rewrite Hnone. reflexivity. }
  split.
  { intros Hnone. unfold selectPhone. rewrite Hnone. reflexivity. }
  split.
  - intros Hnil Hfound. unfold selectName.
    replace (nameColumnIndex toLowerCase hs =? -1)%Z with false
      by (symmetry; apply Z.eqb_neq; exact Hfound).
    cbn [negb]. split; [reflexivity |].
    destruct (at_found (isNameHeader toLowerCase) hs Hfound) as (x & Hx & Hin & Hpx).
    unfold nameColumnIndex. rewrite Hx. split.
    + exists x. split; [reflexivity | exact Hin].
    + apply (isNameHeader_not_empty toLowerCase x Hnil Hpx).
  - intros Hnil Hfound. unfold selectPhone.
    replace (phoneColumnIndex toLowerCase hs =? -1)%Z with false
      by (symmetry; apply Z.eqb_neq; exact Hfound).
    cbn [negb]. split; [reflexivity |].
    destruct (at_found (isPhoneHeader toLowerCase) hs Hfound) as (x & Hx & Hin & Hpx).
    unfold phoneColumnIndex. rewrite Hx. split.
    + exists x. split; [reflexivity | exact Hin].
    + apply (isPhoneHeader_not_empty toLowerCase x Hnil Hpx).
Qed.

Lemma selection_after_parse_witness :
  let csv := lit "Nome,Telefone" in
  exists p, parseCSV asciiLowerCase csv = Ok p
  /\ columns (next (previewLoaded asciiLowerCase initialState initialState csv))
     = headers p.
Proof.
  intros csv.
  eexists. split; [vm_compute; reflexivity |].
  refine (proj1 (selection_after_parse asciiLowerCase initialState
                   initialState csv _ _)).
  vm_compute. reflexivity.
Defined.

(** C9, the claim as stated fails.  The file [",x"] is read once whole and
    once as its only slice; the parse succeeds, no header is recognised, and
    the name selection is the first header, the empty string.  The file
    ["id"] parses to a single header and the phone selection, taken from
    index 1, is undefined.  Neither selection counts as chosen. *)
Lemma fallback_selection_not_chosen :
  let f1 := {| fileName := lit "a.csv"; fileType := lit "text/csv";
               fileText := lit ",x"; sliceTexts := [lit ",x"] |} in
  let f2 := {| fileName := lit "b.csv"; fileType := lit "text/csv";
               fileText := lit "id"; sliceTexts := [lit "id"] |} in
  let s1 := next (previewLoaded asciiLowerCase initialState initialState
                    (joinChunks f1)) in
  let s2 := next (previewLoaded asciiLowerCase initialState initialState
                    (joinChunks f2)) in
  (exists p, parseCSV asciiLowerCase (joinChunks f1) = Ok p)
  /\ nameColumn s1 = Some [] /\ chosen (nameColumn s1) = false
  /\ (exists p, parseCSV asciiLowerCase (joinChunks f2) = Ok p)
  /\ phoneColumn s2 = None /\ chosen (phoneColumn s2) = false.
Proof.
  cbv zeta. repeat split; try (vm_compute; reflexivity);
    eexists; vm_compute; reflexivity.
Qed.

(* ================================================================== *)
(** ** CSVImporter: the transition system *)
(* ================================================================== *)

Section Transitions.

Variable toLowerCase : jsstring -> jsstring.

Lemma isStep_true (a b : Step) : isStep a b = true -> a = b.
Proof. destruct a, b; simpl; intros H; try discriminate; reflexivity. Qed.

Lemma length_eqb_0_nil {A} (l : list A) : (length l =? 0) = false <-> l <> [].
Proof.
  destruct l; simpl; split; intros H; try discriminate; try reflexivity.
  contradiction.
Qed.

Lemma length_ltb_0_nil {A} (l : list A) : (0 <? length l) = true <-> l <> [].
Proof.
  destruct l; simpl; split; intros H; try discriminate; try reflexivity.
  contradiction.
Qed.

Lemma filter_isValid_all (cs : list ContactImport) :
  Forall (fun x => isValid x = true) (filter isValid cs).
Proof. apply Forall_forall. intros x Hx. apply filter_In in Hx. tauto. Qed.

(** The callback is called by [handleConfirm] and by the button of the direct
    tab, whatever the controls allow, and only on a non-empty valid part. *)
Lemma handleConfirm_callback (r s : State) (v : list ContactImport) :
  In (OnComplete v) (effects (handleConfirm r s)) ->
  v = filter isValid (contacts r) /\ v <> [].
Proof.
  unfold handleConfirm. cbv zeta.
  destruct (length (filter isValid (contacts r)) =? 0) eqn:E; cbn [effects].
  - intros [H | []]. discriminate.
  - intros [H | [H | []]]; [| discriminate].
    injection H as <-. split; [reflexivity |].
    apply length_eqb_0_nil. exact E.
Qed.

Lemma directSend_callback (r s : State) (v : list ContactImport) :
  In (OnComplete v) (effects (directSend r s)) ->
  v = filter isValid (contacts r) /\ v <> [].
Proof.
  unfold directSend. cbv zeta.
  destruct (0 <? length (filter isValid (contacts r))) eqn:E; cbn [effects].
  - intros [H | []]. injection H as <-. split; [reflexivity |].
    apply length_ltb_0_nil. exact E.
  - intros [].
Qed.

Lemma validateAndMapContacts_toasts (r s : State) (v : list ContactImport) :
  ~ In (OnComplete v) (effects (validateAndMapContacts r s)).
Proof.
  unfold validateAndMapContacts.
  destruct (negb (chosen (nameColumn r)) || negb (chosen (phoneColumn r)));
    [| destruct (file r)]; cbn [effects]; intros H;
    repeat (destruct H as [H | H]; [discriminate |]); exact H.
Qed.

Lemma previewLoaded_toasts (r s : State) (csv : jsstring)
  (v : list ContactImport) :
  ~ In (OnComplete v) (effects (previewLoaded toLowerCase r s csv)).
Proof.
  unfold previewLoaded. destruct (parseCSV toLowerCase csv).
  - apply validateAndMapContacts_toasts.
  - cbn [effects]. intros [H | []]. discriminate.
Qed.

Lemma mappingLoaded_toasts (r s : State) (csv : jsstring)
  (v : list ContactImport) :
  ~ In (OnComplete v) (effects (mappingLoaded r s csv)).
Proof.
  unfold mappingLoaded.
  destruct (mapContacts (nameColumn r) (phoneColumn r) csv); cbn [effects].
  - intros [].
  - intros [H | []]. discriminate.
Qed.

Lemma handleFileChange_toasts (r s : State) (f : option File)
  (v : list ContactImport) :
  ~ In (OnComplete v) (effects (handleFileChange r s f)).
Proof.
  unfold handleFileChange, processCSV. destruct f as [f |]; [| intros []].
  destruct (negb (strEq (fileType f) (lit "text/csv"))
            && negb (endsWith (lit ".csv") (fileName f))); cbn [effects].
  - intros [H | []]. discriminate.
  - intros [].
Qed.

End Transitions.

(** C2. Whenever a step of the importer calls the completion callback, the
    step is the confirmation of the file path or the send of the direct
    path, and the argument is exactly the contacts of the current batch
    whose isValid is true, in the order of the batch: every forwarded record
    is valid, and the argument is never empty, so the callback is not called
    on a batch without a valid record. *)
Theorem onComplete_receives_valid_batch
  (toLowerCase : jsstring -> jsstring) (c c' : Config) (ev : Event)
  (eff : list Effect) (validContacts : list ContactImport) :
  fire toLowerCase ev c = Some (c', eff) ->
  In (OnComplete validContacts) eff ->
  (ev = ConfirmImport \/ ev = DirectSend)
  /\ validContacts = filter isValid (contacts (ui c))
  /\ Forall (fun x => isValid x = true) validContacts
  /\ validContacts <> [].
Proof.
  intros Hfire Hin.
  assert (Hcall : (ev = ConfirmImport \/ ev = DirectSend)
                  /\ validContacts = filter isValid (contacts (ui c))
                  /\ validContacts <> []).
  { destruct ev; unfold fire in Hfire; cbv zeta in Hfire;
      try (match type of Hfire with
           | (if ?g then _ else _) = _ =>
               lazymatch type of g with
               | bool => destruct g; [| discriminate Hfire]
               end
           end);
      try (unfold finish in Hfire; injection Hfire as _ <-).
    - destruct Hin.
    - destruct Hin.
    - exfalso. exact (handleFileChange_toasts _ _ _ _ Hin).
    - destruct Hin.
    - destruct Hin.
    - destruct Hin.
    - exfalso. exact (validateAndMapContacts_toasts _ _ _ Hin).
    - destruct Hin.
    - split; [left; reflexivity | exact (handleConfirm_callback _ _ _ Hin)].
    - destruct Hin.
    - split; [right; reflexivity | exact (directSend_callback _ _ _ Hin)].
    - destruct (nth_error (pending c) i) as [[r f | r f] |];
        [| | discriminate Hfire];
        unfold finishRead in Hfire; injection Hfire as _ <-; exfalso.
      + exact (previewLoaded_toasts _ _ _ _ _ Hin).
      + exact (mappingLoaded_toasts _ _ _ _ Hin).
    - destruct (nth_error (pending c) i); [| discriminate Hfire].
      unfold finishRead in Hfire; injection Hfire as _ <-.
      destruct Hin as [H | []]. discriminate. }
  destruct Hcall as (Hev & Hv & Hne).
  repeat split; auto. rewrite Hv. apply filter_isValid_all.
Qed.

Lemma onComplete_receives_valid_batch_witness :
  let ana := {| name := lit "Ana"; phoneNumber := lit "5511999998888";
                isValid := true |} in
  let bia := {| name := lit "Bia"; phoneNumber := lit "55123";
                isValid := false |} in
  let c := {| ui := setOpen true (setStep Preview
                      (setContacts [bia; ana] initialState));
              pending := [] |} in
  (ConfirmImport = ConfirmImport \/ ConfirmImport = DirectSend)
  /\ [ana] = filter isValid (contacts (ui c))
  /\ Forall (fun x => isValid x = true) [ana]
  /\ [ana] <> [].
Proof.
  intros ana bia c.
  apply (onComplete_receives_valid_batch asciiLowerCase c
           {| ui := setOpen false (resetState (ui c)); pending := [] |}
           ConfirmImport
           [OnComplete [ana]; Toast (ImportacaoConcluida 1)] [ana]).
  - vm_compute. reflexivity.
  - simpl. left. reflexivity.
Defined.

Section Steps.

Variable toLowerCase : jsstring -> jsstring.

Lemma validateAndMapContacts_reads (r s : State) :
  Forall pendingChosen (reads (validateAndMapContacts r s)).
Proof.
  unfold validateAndMapContacts.
  destruct (chosen (nameColumn r)) eqn:En, (chosen (phoneColumn r)) eqn:Ep;
    cbn [negb orb]; try (constructor; fail).
  destruct (file r); cbn [reads]; repeat constructor; assumption.
Qed.

Lemma previewLoaded_reads (r s : State) (csv : jsstring) :
  Forall pendingChosen (reads (previewLoaded toLowerCase r s csv)).
Proof.
  unfold previewLoaded. destruct (parseCSV toLowerCase csv).
  - apply validateAndMapContacts_reads.
  - constructor.
Qed.

Lemma mappingLoaded_reads (r s : State) (csv : jsstring) :
  reads (mappingLoaded r s csv) = [].
Proof.
  unfold mappingLoaded.
  destruct (mapContacts (nameColumn r) (phoneColumn r) csv); reflexivity.
Qed.

Lemma handleFileChange_reads (r s : State) (f : option File) :
  Forall pendingChosen (reads (handleFileChange r s f)).
Proof.
  unfold handleFileChange, processCSV. destruct f as [f |]; [| constructor].
  destruct (negb (strEq (fileType f) (lit "text/csv"))
            && negb (endsWith (lit ".csv") (fileName f))); cbn [reads];
    repeat constructor.
Qed.

Lemma handleFileChange_step (r s : State) (f : option File) :
  step (next (handleFileChange r s f)) = step s.
Proof.
  unfold handleFileChange, processCSV. destruct f as [f |]; [| reflexivity].
  destruct (negb (strEq (fileType f) (lit "text/csv"))
            && negb (endsWith (lit ".csv") (fileName f))); reflexivity.
Qed.

Lemma previewLoaded_step (r s : State) (csv : jsstring) :
  step (next (previewLoaded toLowerCase r s csv)) = step s.
Proof.
  unfold previewLoaded. destruct (parseCSV toLowerCase csv); [| reflexivity].
  destruct (validateAndMapContacts_columns r
              (setPhoneColumn (selectedPhone a)
                 (setNameColumn (selectedName a)
                    (setIsProcessing false
                       (setPreviewData (preview a)
                          (setColumns (headers a) s))))))
    as (_ & _ & _ & _ & E).
  rewrite E. reflexivity.
Qed.

Lemma Forall_removeAt {A} (P : A -> Prop) (l : list A) :
  Forall P l -> forall i, Forall P (removeAt i l).
Proof.
  induction 1 as [|x l Hx Hl IH]; intros [|i]; simpl;
    try constructor; auto.
Qed.

Ltac open_guard H :=
  match type of H with
  | (if ?g then _ else _) = _ =>
      lazymatch type of g with
      | bool => let G := fresh "G" in
                destruct g eqn:G; [| discriminate H]
      end
  end.

Ltac ands G :=
  repeat match type of G with
         | (_ && _) = true =>
             let G' := fresh "G" in
             apply andb_true_iff in G; destruct G as [G G']
         end.

(** The reads in flight stay reads of renders with both columns chosen. *)
Lemma fire_pending (c c' : Config) (ev : Event) (eff : list Effect) :
  Forall pendingChosen (pending c) ->
  fire toLowerCase ev c = Some (c', eff) ->
  Forall pendingChosen (pending c').
Proof.
  intros Hall Hfire.
  destruct ev; unfold fire in Hfire; cbv zeta in Hfire; try open_guard Hfire;
    try (unfold finish in Hfire; injection Hfire as <- _; cbn [pending];
         apply Forall_app; split; [exact Hall |]);
    try (constructor; fail).
  - apply handleFileChange_reads.
  - apply validateAndMapContacts_reads.
  - unfold handleConfirm. cbv zeta.
    destruct (length (filter isValid (contacts (ui c))) =? 0); constructor.
  - unfold directSend. cbv zeta.
    destruct (0 <? length (filter isValid (contacts (ui c)))); constructor.
  - destruct (nth_error (pending c) i) as [[r f | r f] |];
      [| | discriminate Hfire];
      unfold finishRead in Hfire; injection Hfire as <- _; cbn [pending];
      apply Forall_app; (split; [apply Forall_removeAt; exact Hall |]).
    + apply previewLoaded_reads.
    + rewrite mappingLoaded_reads. constructor.
  - destruct (nth_error (pending c) i); [| discriminate Hfire].
    unfold finishRead in Hfire; injection Hfire as <- _; cbn [pending].
    apply Forall_app; split; [apply Forall_removeAt; exact Hall | constructor].
Qed.

(** How one event changes the step. *)
Lemma fire_step_change (c c' : Config) (ev : Event) (eff : list Effect) :
  Forall pendingChosen (pending c) ->
  fire toLowerCase ev c = Some (c', eff) ->
  StepChange c ev c'.
Proof.
  intros Hall Hfire.
  destruct ev; unfold fire in Hfire; cbv zeta in Hfire; try open_guard Hfire;
    try (unfold finish in Hfire; injection Hfire as <- _).
  - destruct newOpen.
    + apply Stays. reflexivity.
    + apply ToUploadByClose; reflexivity.
  - apply Stays. reflexivity.
  - apply Stays. cbn [ui]. apply handleFileChange_step.
  - apply Stays. reflexivity.
  - apply Stays. reflexivity.
  - ands G. apply BackFromMap; [reflexivity | | reflexivity].
    apply isStep_true. assumption.
  - apply Stays. cbn [ui].
    apply (validateAndMapContacts_columns (ui c) (ui c)).
  - ands G. apply BackFromPreview; [reflexivity | | reflexivity].
    apply isStep_true. assumption.
  - cbn [ui]. unfold handleConfirm. cbv zeta.
    destruct (length (filter isValid (contacts (ui c))) =? 0) eqn:E.
    + apply Stays. reflexivity.
    + apply ToUploadByImport; [left; reflexivity | | reflexivity].
      apply length_eqb_0_nil. exact E.
  - cbn [ui]. unfold directChange. cbv zeta.
    destruct (0 <? length (mapDirectInput value)) eqn:E.
    + apply (ToPreviewByPaste c (DirectChange value) _ value);
        try reflexivity.
      apply length_ltb_0_nil. exact E.
    + apply Stays. reflexivity.
  - cbn [ui]. unfold directSend. cbv zeta.
    destruct (0 <? length (filter isValid (contacts (ui c)))) eqn:E.
    + apply ToUploadByImport; [right; reflexivity | | reflexivity].
      apply length_ltb_0_nil. exact E.
    + apply Stays. reflexivity.
  - destruct (nth_error (pending c) i) as [[r f | r f] |] eqn:Hi;
      [| | discriminate Hfire];
      unfold finishRead in Hfire; injection Hfire as <- _.
    + apply Stays. cbn [ui]. apply previewLoaded_step.
    + cbn [ui]. unfold mappingLoaded.
      destruct (mapContacts (nameColumn r) (phoneColumn r) (fileText f))
        as [mapped | e] eqn:E.
      * rewrite Forall_forall in Hall.
        destruct (Hall _ (nth_error_In _ _ Hi)) as [Hn Hp].
        apply (ToPreviewByMapping c (ReadLoaded i) _ i r f mapped);
          try reflexivity; try assumption.
      * apply Stays. reflexivity.
  - destruct (nth_error (pending c) i); [| discriminate Hfire].
    unfold finishRead in Hfire; injection Hfire as <- _.
    apply Stays. reflexivity.
Qed.

Lemma StepChange_not_confirm (c c' : Config) (ev : Event) :
  StepChange c ev c' -> step (ui c) <> Confirm -> step (ui c') <> Confirm.
Proof.
  intros [E | i r f m _ _ _ _ _ _ E | v _ _ _ E | _ _ E | _ _ E | _ E | _ _ E] Hc;
    rewrite E; try exact Hc; discriminate.
Qed.

Lemma reachable_invariant (c : Config) :
  reachable toLowerCase c ->
  step (ui c) <> Confirm /\ Forall pendingChosen (pending c).
Proof.
  induction 1 as [| c ev c' eff Hreach [IHs IHp] Hfire].
  - split; [discriminate | constructor].
  - split.
    + eapply StepChange_not_confirm; [| exact IHs].
      eapply fire_step_change; [exact IHp | exact Hfire].
    + eapply fire_pending; [exact IHp | exact Hfire].
Qed.

End Steps.

(** C7, as amended. The step takes only the four values upload, map, preview
    and confirm; it starts at upload and never becomes confirm.  In every
    configuration the importer can reach, an event leaves the step as it is
    or changes it in one of these ways: to preview, from whatever step is
    current, when the read of validateAndMapContacts succeeds, which happens
    only for a render in which both a name and a phone column were chosen;
    to preview, from whatever step is current, when the text pasted in the
    direct-input tab yields at least one record, valid or not; from preview
    to map and from map to upload by the Back buttons; to upload when the
    dialog is closed, and when the confirmation or the direct send finds at
    least one valid contact.  The step never goes from upload to map. *)
Theorem step_changes_of_importer
  (toLowerCase : jsstring -> jsstring) (c c' : Config) (ev : Event)
  (eff : list Effect) :
  reachable toLowerCase c ->
  fire toLowerCase ev c = Some (c', eff) ->
  StepChange c ev c'
  /\ step (ui c) <> Confirm
  /\ step (ui c') <> Confirm
  /\ ~ (step (ui c) = Upload /\ step (ui c') = Map).
Proof.
  intros Hreach Hfire.
  destruct (reachable_invariant toLowerCase c Hreach) as [Hs Hp].
  pose proof (fire_step_change toLowerCase c c' ev eff Hp Hfire) as Hchange.
  split; [exact Hchange |].
  split; [exact Hs |].
  split; [exact (StepChange_not_confirm c c' ev Hchange Hs) |].
  intros [Hu Hm].
  destruct Hchange
    as [E | i r f m _ _ _ _ _ _ E | v _ _ _ E | _ Hpre E | _ _ E | _ E | _ _ E];
    congruence.
Qed.

Lemma step_changes_of_importer_witness :
  let c := {| ui := setOpen true initialState; pending := [] |} in
  let c' := {| ui := setStep Preview
                       (setContacts (mapDirectInput (lit "11999998888"))
                          (setOpen true initialState));
               pending := [] |} in
  StepChange c (DirectChange (lit "11999998888")) c'
  /\ step (ui c) <> Confirm
  /\ step (ui c') <> Confirm
  /\ ~ (step (ui c) = Upload /\ step (ui c') = Map).
Proof.
  intros c c'.
  apply (step_changes_of_importer asciiLowerCase c c'
           (DirectChange (lit "11999998888")) []).
  - apply (reachable_step asciiLowerCase initialConfig (OpenChange true) c []).
    + apply reachable_init.
    + vm_compute. reflexivity.
  - vm_compute. reflexivity.
Defined.

(** C7, the claim as stated fails.  From the first render, opening the dialog
    and pasting one number in the direct-input tab takes the step from upload
    straight to preview, a forward transition that is not in the table.
    Going back to map and pasting again takes it from map to preview while
    both column selections are still the empty string. *)
Lemma paste_jumps_to_preview :
  let paste := DirectChange (lit "11999998888") in
  exists c1 c2 c3 c4 e1 e2 e3 e4,
    fire asciiLowerCase (OpenChange true) initialConfig = Some (c1, e1)
    /\ fire asciiLowerCase paste c1 = Some (c2, e2)
    /\ fire asciiLowerCase BackToMap c2 = Some (c3, e3)
    /\ fire asciiLowerCase paste c3 = Some (c4, e4)
    /\ reachable asciiLowerCase c1 /\ reachable asciiLowerCase c3
    /\ step (ui c1) = Upload /\ step (ui c2) = Preview
    /\ Claimed.rank (step (ui c1)) < Claimed.rank (step (ui c2))
    /\ Claimed.forwardInTable (step (ui c1)) (step (ui c2)) = false
    /\ step (ui c3) = Map /\ step (ui c4) = Preview
    /\ chosen (nameColumn (ui c3)) = false
    /\ chosen (phoneColumn (ui c3)) = false.
Proof.
  intros paste.
  set (c1 := {| ui := setOpen true initialState; pending := [] |}).
  set (c2 := {| ui := setStep Preview
                        (setContacts (mapDirectInput (lit "11999998888"))
                           (ui c1));
                pending := [] |}).
  set (c3 := {| ui := setStep Map (ui c2); pending := [] |}).
  set (c4 := {| ui := setStep Preview
                        (setContacts (mapDirectInput (lit "11999998888"))
                           (ui c3));
                pending := [] |}).
  assert (F1 : fire asciiLowerCase (OpenChange true) initialConfig
               = Some (c1, [])) by (vm_compute; reflexivity).
  assert (F2 : fire asciiLowerCase paste c1 = Some (c2, []))
    by (vm_compute; reflexivity).
  assert (F3 : fire asciiLowerCase BackToMap c2 = Some (c3, []))
    by (vm_compute; reflexivity).
  assert (F4 : fire asciiLowerCase paste c3 = Some (c4, []))
    by (vm_compute; reflexivity).
  assert (R1 : reachable asciiLowerCase c1)
    by (exact (reachable_step asciiLowerCase initialConfig (OpenChange true)
                 c1 [] (reachable_init asciiLowerCase) F1)).
  assert (R2 : reachable asciiLowerCase c2)
    by (exact (reachable_step asciiLowerCase c1 paste c2 [] R1 F2)).
  assert (R3 : reachable asciiLowerCase c3)
    by (exact (reachable_step asciiLowerCase c2 BackToMap c3 [] R2 F3)).
  exists c1, c2, c3, c4, [], [], [], [].
  repeat split; try assumption; vm_compute; try reflexivity; lia.
Qed.

(* ================================================================== *)
(** ** Beyond the claims: delimiter, cells and lines *)
(* ================================================================== *)

Section Cells.

(** The three counts decide the result of [detectDelimiter] in full. *)
Lemma detectDelimiter_cases (headerLine : jsstring) :
  detectDelimiter headerLine
  = if Nat.max (occurrences 44 headerLine) (occurrences 59 headerLine)
       <? occurrences 9 headerLine
    then tabLiteral
    else if occurrences 44 headerLine <? occurrences 59 headerLine
         then lit ";" else lit ",".
Proof.
  unfold detectDelimiter, delimiters. cbn [fold_left].
  unfold detectStep at 3. cbn [snd]. rewrite count_commas.
  destruct (0 <? occurrences 44 headerLine) eqn:E0;
    unfold detectStep at 2; cbn [snd]; rewrite count_semicolons;
    [apply Nat.ltb_lt in E0 | apply Nat.ltb_ge in E0].
  - destruct (occurrences 44 headerLine <? occurrences 59 headerLine) eqn:E1;
      unfold detectStep; cbn [snd]; rewrite count_tabs;
      [apply Nat.ltb_lt in E1 | apply Nat.ltb_ge in E1].
    + rewrite Nat.max_r by lia.
      destruct (occurrences 59 headerLine <? occurrences 9 headerLine);
        reflexivity.
    + rewrite Nat.max_l by lia.
      destruct (occurrences 44 headerLine <? occurrences 9 headerLine);
        reflexivity.
  - replace (occurrences 44 headerLine) with 0 in * by lia.
    rewrite Nat.max_0_l.
    destruct (0 <? occurrences 59 headerLine) eqn:E1;
      unfold detectStep; cbn [snd]; rewrite count_tabs;
      [apply Nat.ltb_lt in E1 | apply Nat.ltb_ge in E1].
    + destruct (occurrences 59 headerLine <? occurrences 9 headerLine);
        reflexivity.
    + replace (occurrences 59 headerLine) with 0 by lia.
      destruct (0 <? occurrences 9 headerLine); reflexivity.
Qed.

Lemma length_splitGo (m : jsstring -> option nat) (s : jsstring) :
  forall skip cur, length (splitGo m skip cur s) = S (countGo m skip s).
Proof.
  induction s as [|c s IH]; intros skip cur; cbn [splitGo countGo].
  - reflexivity.
  - destruct skip as [|k]; [| apply IH].
    destruct (m (c :: s)) as [[|n] |]; cbn [length]; rewrite IH; reflexivity.
Qed.

Lemma startsWith_length (p s : jsstring) :
  startsWith p s = true -> s = p ++ skipn (length p) s.
Proof.
  intros H. apply startsWith_true_iff in H. destruct H as [t ->].
  rewrite skipn_app, skipn_all, Nat.sub_diag. reflexivity.
Qed.

Lemma join_cons (sep p : jsstring) (rest : list jsstring) :
  rest <> [] -> join sep (p :: rest) = p ++ sep ++ join sep rest.
Proof. destruct rest; [contradiction | reflexivity]. Qed.

Lemma join_splitGo (sep s : jsstring) :
  forall skip cur, skip <= length s ->
  join sep (splitGo (matchLiteral sep) skip cur s) = rev cur ++ skipn skip s.
Proof.
  induction s as [|c s IH]; intros skip cur Hskip.
  - cbn [length] in Hskip. replace skip with 0 by lia.
    cbn. rewrite app_nil_r. reflexivity.
  - cbn [splitGo]. destruct skip as [|k].
    + unfold matchLiteral at 1.
      destruct (startsWith sep (c :: s)) eqn:E.
      * destruct (length sep) as [|n] eqn:El.
        -- rewrite (IH 0 (c :: cur)) by lia. cbn [rev skipn].
           rewrite <- app_assoc. reflexivity.
        -- rewrite join_cons by apply splitGo_not_nil.
           pose proof (startsWith_length sep (c :: s) E) as Hs.
           rewrite El in Hs. cbn [skipn] in Hs.
           assert (Hn : n <= length s).
           { apply (f_equal (@length _)) in Hs.
             rewrite length_app, El in Hs. cbn [length] in Hs.
             rewrite length_skipn in Hs. lia. }
           rewrite (IH n []) by exact Hn. cbn [rev app skipn].
           rewrite <- Hs. reflexivity.
      * rewrite (IH 0 (c :: cur)) by lia. cbn [rev skipn].
        rewrite <- app_assoc. reflexivity.
    + cbn [length] in Hskip. rewrite (IH k cur) by lia. reflexivity.
Qed.

End Cells.

(** X1. detectDelimiter always returns one of its three candidates, never an
    empty string, and no candidate occurs more often in the header line than
    the one returned. *)
Theorem detectDelimiter_candidate_of_highest_count (headerLine : jsstring) :
  In (detectDelimiter headerLine) delimiters
  /\ detectDelimiter headerLine <> []
  /\ forall d, In d delimiters ->
       countMatches (regExp d) headerLine
       <= countMatches (regExp (detectDelimiter headerLine)) headerLine.
Proof.
  rewrite detectDelimiter_cases.
  destruct (Nat.max (occurrences 44 headerLine) (occurrences 59 headerLine)
            <? occurrences 9 headerLine) eqn:E1;
    [apply Nat.ltb_lt in E1 | apply Nat.ltb_ge in E1;
     destruct (occurrences 44 headerLine <? occurrences 59 headerLine) eqn:E2;
     [apply Nat.ltb_lt in E2 | apply Nat.ltb_ge in E2]];
    (split; [unfold delimiters; simpl; tauto |]);
    (split; [discriminate |]);
    intros d [<- | [<- | [<- | []]]];
    rewrite ?count_commas, ?count_semicolons, ?count_tabs; lia.
Qed.

(** X2. Splitting a line at a non-empty delimiter loses nothing: the raw
    cells joined with the delimiter give the line back, and there is one
    cell more than there are matches of the delimiter. *)
Theorem split_join_round_trip (sep line : jsstring) :
  sep <> [] ->
  join sep (split sep line) = line
  /\ length (split sep line) = S (countMatches (matchLiteral sep) line).
Proof.
  intros _. split.
  - unfold split, splitBy. rewrite join_splitGo by lia. reflexivity.
  - unfold split, splitBy, countMatches. apply length_splitGo.
Qed.

Lemma split_join_round_trip_witness :
  join (lit ";") (split (lit ";") (lit "Ana;;11 9999"))
  = lit "Ana;;11 9999"
  /\ length (split (lit ";") (lit "Ana;;11 9999"))
     = S (countMatches (matchLiteral (lit ";")) (lit "Ana;;11 9999")).
Proof.
  apply (split_join_round_trip (lit ";") (lit "Ana;;11 9999")).
  vm_compute. discriminate.
Defined.

(** X3. When the tabs of the header line do not outnumber both the commas
    and the semicolons, the header list has one column more than the higher
    of the two counts: the delimiter that is counted is the one the line is
    split at. *)
Theorem header_columns_count (headerLine : jsstring) :
  occurrences 9 headerLine
    <= Nat.max (occurrences 44 headerLine) (occurrences 59 headerLine) ->
  length (splitRow (detectDelimiter headerLine) headerLine)
  = S (Nat.max (occurrences 44 headerLine) (occurrences 59 headerLine)).
Proof.
  intros Htabs. unfold splitRow. rewrite length_map.
  unfold split, splitBy. rewrite length_splitGo.
  rewrite detectDelimiter_cases.
  replace (Nat.max (occurrences 44 headerLine) (occurrences 59 headerLine)
           <? occurrences 9 headerLine) with false
    by (symmetry; apply Nat.ltb_ge; exact Htabs).
  destruct (occurrences 44 headerLine <? occurrences 59 headerLine) eqn:E;
    [apply Nat.ltb_lt in E | apply Nat.ltb_ge in E].
  - change (countGo (matchLiteral (lit ";")) 0 headerLine)
      with (countMatches (regExp (lit ";")) headerLine).
    rewrite count_semicolons. lia.
  - change (countGo (matchLiteral (lit ",")) 0 headerLine)
      with (countMatches (regExp (lit ",")) headerLine).
    rewrite count_commas. lia.
Qed.

Lemma header_columns_count_witness :
  length (splitRow (detectDelimiter (lit "Nome;Telefone;Cidade,UF"))
            (lit "Nome;Telefone;Cidade,UF"))
  = S (Nat.max (occurrences 44 (lit "Nome;Telefone;Cidade,UF"))
         (occurrences 59 (lit "Nome;Telefone;Cidade,UF"))).
Proof.
  apply (header_columns_count (lit "Nome;Telefone;Cidade,UF")).
  vm_compute. lia.
Defined.

(* ================================================================== *)
(** ** Beyond the claims: the lines and the rows of a file *)
(* ================================================================== *)

Section Lines.

Lemma lineBreak_needs_backslash (c : codeUnit) (s : jsstring) :
  N.eqb 92 c = false -> matchLineBreak (c :: s) = None.
Proof.
  intros E. unfold matchLineBreak.
  change backslash_r_backslash_n with [92%N; 114%N; 92%N; 110%N].
  change backslash_backslash_n with [92%N; 92%N; 110%N].
  cbn [startsWith]. rewrite E. reflexivity.
Qed.

Lemma splitGo_one_piece (m : jsstring -> option nat) (s : jsstring) :
  (forall (c : codeUnit) (t : jsstring),
      N.eqb 92 c = false -> m (c :: t) = None) ->
  occurrences 92 s = 0 ->
  forall cur, splitGo m 0 cur s = [rev cur ++ s].
Proof.
  intros Hm. unfold occurrences. induction s as [|c s IH]; intros H cur.
  - simpl. rewrite app_nil_r. reflexivity.
  - cbn [filter] in H. destruct (N.eqb 92 c) eqn:E; [discriminate |].
    cbn [splitGo]. rewrite (Hm c s E). rewrite (IH H (c :: cur)).
    cbn [rev]. rewrite <- app_assoc. reflexivity.
Qed.

(** Without a backslash in it a text is one line at most, whatever line
    breaks it has. *)
Lemma splitLines_no_backslash (csv : jsstring) :
  occurrences 92 csv = 0 ->
  splitLines csv = if 0 <? length (trim csv) then [csv] else [].
Proof.
  intros H. unfold splitLines, splitBy.
  rewrite (splitGo_one_piece matchLineBreak csv lineBreak_needs_backslash H).
  reflexivity.
Qed.

Lemma trimStart_all_space (s : jsstring) :
  forallb isWhiteSpace s = true -> trimStart s = [].
Proof.
  induction s as [|c s IH]; [reflexivity |].
  cbn [forallb trimStart]. intros H. apply andb_true_iff in H.
  destruct H as [Hc Hs]. rewrite Hc. exact (IH Hs).
Qed.

Lemma all_space_no_backslash (s : jsstring) :
  forallb isWhiteSpace s = true -> occurrences 92 s = 0.
Proof.
  unfold occurrences. induction s as [|c s IH]; [reflexivity |].
  cbn [forallb filter]. intros H. apply andb_true_iff in H.
  destruct H as [Hc Hs].
  destruct (N.eqb 92 c) eqn:E; [| exact (IH Hs)].
  apply N.eqb_eq in E. subst c. discriminate Hc.
Qed.

Lemma splitLines_blank (csv : jsstring) :
  forallb isWhiteSpace csv = true -> splitLines csv = [].
Proof.
  intros H. rewrite (splitLines_no_backslash csv (all_space_no_backslash csv H)).
  unfold trim. rewrite (trimStart_all_space csv H). reflexivity.
Qed.

(** Each line kept by [splitLines] has something besides white space. *)
Lemma splitLines_not_blank (csv line : jsstring) :
  In line (splitLines csv) -> (0 <? length (trim line)) = true.
Proof. unfold splitLines. intros H. apply filter_In in H. tauto. Qed.

Lemma mapRows_as_filter (delimiter : jsstring) (nameIndex phoneIndex : Z)
  (lines : list jsstring) :
  Forall (fun line => (0 <? length (trim line)) = true) lines ->
  map name (mapRows delimiter nameIndex phoneIndex lines)
  = map (fun line => nth (Z.to_nat nameIndex) (splitRow delimiter line) [])
      (filter (fun line =>
                 (Z.max nameIndex phoneIndex
                  <? Z.of_nat (length (splitRow delimiter line)))%Z)
         lines).
Proof.
  induction 1 as [|line lines Hline Hall IH]; [reflexivity |].
  cbn [mapRows filter]. unfold mapRow at 1. rewrite Hline. cbn [negb].
  cbv zeta. rewrite Z.ltb_antisym.
  destruct (Z.of_nat (length (splitRow delimiter line))
            <=? Z.max nameIndex phoneIndex)%Z; cbn [negb].
  - exact IH.
  - destruct (normalizePhone
                (nth (Z.to_nat phoneIndex) (splitRow delimiter line) []))
      as [ph v].
    cbn [map name]. rewrite IH. reflexivity.
Qed.

Lemma normalizePhone_rule (raw : jsstring) :
  let '(phone, valid) := normalizePhone raw in
  (valid = true <-> 12 <= length phone)
  /\ (startsWith (lit "55") phone = true \/ 12 < length phone).
Proof.
  unfold normalizePhone.
  set (p := removeAll (matchLiteral backslash_D) raw).
  destruct (length p <=? 12) eqn:El;
    [apply Nat.leb_le in El | apply Nat.leb_gt in El]; cbn [andb].
  - destruct (startsWith (lit "55") p) eqn:Es; cbn [negb].
    + split; [apply Nat.leb_le | left; exact Es].
    + split; [apply Nat.leb_le | left; reflexivity].
  - split; [apply Nat.leb_le | right; exact El].
Qed.

Lemma mapRows_rule (delimiter : jsstring) (nameIndex phoneIndex : Z)
  (lines : list jsstring) (c : ContactImport) :
  In c (mapRows delimiter nameIndex phoneIndex lines) ->
  (isValid c = true <-> 12 <= length (phoneNumber c))
  /\ (startsWith (lit "55") (phoneNumber c) = true
      \/ 12 < length (phoneNumber c)).
Proof.
  induction lines as [|line lines IH]; [intros [] |].
  cbn [mapRows].
  destruct (mapRow delimiter nameIndex phoneIndex line) as [c' |] eqn:E;
    [| exact IH].
  intros [<- | Hin]; [| exact (IH Hin)].
  unfold mapRow in E.
  destruct (negb (0 <? length (trim line))); [discriminate |].
  cbv zeta in E.
  destruct (Z.of_nat (length (splitRow delimiter line))
            <=? Z.max nameIndex phoneIndex)%Z; [discriminate |].
  pose proof (normalizePhone_rule
                (nth (Z.to_nat phoneIndex) (splitRow delimiter line) []))
    as Hrule.
  destruct (normalizePhone
              (nth (Z.to_nat phoneIndex) (splitRow delimiter line) []))
    as [ph v].
  injection E as <-. exact Hrule.
Qed.

Lemma mapContacts_rule (n p : option jsstring) (csv : jsstring)
  (cs : list ContactImport) :
  mapContacts n p csv = Ok cs ->
  Forall (fun c =>
            (isValid c = true <-> 12 <= length (phoneNumber c))
            /\ (startsWith (lit "55") (phoneNumber c) = true
                \/ 12 < length (phoneNumber c))) cs.
Proof.
  unfold mapContacts. destruct (splitLines csv) as [|line0 rest];
    [discriminate |].
  cbv zeta.
  destruct ((indexOfColumn (mapHeaders line0) n =? -1)%Z
            || (indexOfColumn (mapHeaders line0) p =? -1)%Z);
    [discriminate |].
  intros H. injection H as <-. apply Forall_forall. intros c Hc.
  exact (mapRows_rule _ _ _ _ c Hc).
Qed.

End Lines.

(** X4. A file text made of white space only, the empty text included, has no
    line.  The handler of processCSV then reports "Erro ao processar arquivo"
    and the mapping handler "Erro ao processar contatos"; each only sets
    isProcessing to false, starts no read and leaves the rest of the state
    as it is. *)
Theorem blank_file_is_rejected
  (toLowerCase : jsstring -> jsstring) (r s : State) (csv : jsstring) :
  forallb isWhiteSpace csv = true ->
  parseCSV toLowerCase csv = Throw EmptyCSV
  /\ previewLoaded toLowerCase r s csv
     = {| next := setIsProcessing false s;
          effects := [Toast ErroAoProcessarCSV]; reads := [] |}
  /\ mapContacts (nameColumn r) (phoneColumn r) csv = Throw TypeError
  /\ mappingLoaded r s csv
     = {| next := setIsProcessing false s;
          effects := [Toast ErroAoProcessarContatos]; reads := [] |}.
Proof.
  intros H. pose proof (splitLines_blank csv H) as E.
  assert (E1 : parseCSV toLowerCase csv = Throw EmptyCSV)
    by (unfold parseCSV; rewrite E; reflexivity).
  assert (E2 : mapContacts (nameColumn r) (phoneColumn r) csv = Throw TypeError)
    by (unfold mapContacts; rewrite E; reflexivity).
  repeat split; try assumption.
  - unfold previewLoaded. rewrite E1. reflexivity.
  - unfold mappingLoaded. rewrite E2. reflexivity.
Qed.

Lemma blank_file_is_rejected_witness :
  parseCSV asciiLowerCase [32%N; 10%N; 13%N; 10%N] = Throw EmptyCSV
  /\ previewLoaded asciiLowerCase initialState initialState
       [32%N; 10%N; 13%N; 10%N]
     = {| next := setIsProcessing false initialState;
          effects := [Toast ErroAoProcessarCSV]; reads := [] |}
  /\ mapContacts (nameColumn initialState) (phoneColumn initialState)
       [32%N; 10%N; 13%N; 10%N] = Throw TypeError
  /\ mappingLoaded initialState initialState [32%N; 10%N; 13%N; 10%N]
     = {| next := setIsProcessing false initialState;
          effects := [Toast ErroAoProcessarContatos]; reads := [] |}.
Proof.
  apply (blank_file_is_rejected asciiLowerCase initialState initialState
           [32%N; 10%N; 13%N; 10%N]).
  vm_compute. reflexivity.
Defined.

(** X5. A file text without a backslash is a single line for both handlers,
    whatever line feeds and carriage returns it has: the preview of
    processCSV has at most the header row, and a mapping that succeeds maps
    no contact. *)
Theorem text_without_backslash_is_one_line
  (toLowerCase : jsstring -> jsstring) (n p : option jsstring)
  (csv : jsstring) :
  occurrences 92 csv = 0 ->
  length (splitLines csv) <= 1
  /\ (forall parsed, parseCSV toLowerCase csv = Ok parsed ->
        preview parsed = [headers parsed])
  /\ (forall cs, mapContacts n p csv = Ok cs -> cs = []).
Proof.
  intros H. pose proof (splitLines_no_backslash csv H) as E.
  split; [| split].
  - rewrite E. destruct (0 <? length (trim csv)); simpl; lia.
  - intros parsed. unfold parseCSV. rewrite E.
    destruct (0 <? length (trim csv)); [| discriminate].
    cbv zeta. intros Hp. injection Hp as <-. reflexivity.
  - intros cs. unfold mapContacts. rewrite E.
    destruct (0 <? length (trim csv)); [| discriminate].
    cbv zeta.
    destruct ((indexOfColumn (mapHeaders csv) n =? -1)%Z
              || (indexOfColumn (mapHeaders csv) p =? -1)%Z);
      [discriminate |].
    intros Hc. injection Hc as <-. reflexivity.
Qed.

Lemma text_without_backslash_is_one_line_witness :
  let csv := lit "Nome,Telefone" ++ [10%N] ++ lit "Ana,11999998888" in
  length (splitLines csv) <= 1
  /\ (forall parsed, parseCSV asciiLowerCase csv = Ok parsed ->
        preview parsed = [headers parsed])
  /\ (forall cs, mapContacts (Some (lit "Nome")) (Some (lit "Telefone")) csv
                 = Ok cs -> cs = []).
Proof.
  intros csv.
  apply (text_without_backslash_is_one_line asciiLowerCase
           (Some (lit "Nome")) (Some (lit "Telefone")) csv).
  vm_compute. reflexivity.
Defined.

(** X6. Every contact the file mapper produces is valid exactly when its
    phone number has at least 12 code units, and its phone number starts
    with "55" unless it has more than 12 code units. *)
Theorem file_contacts_validity_rule
  (n p : option jsstring) (csv : jsstring) (cs : list ContactImport) :
  mapContacts n p csv = Ok cs ->
  Forall (fun c =>
            (isValid c = true <-> 12 <= length (phoneNumber c))
            /\ (startsWith (lit "55") (phoneNumber c) = true
                \/ 12 < length (phoneNumber c))) cs.
Proof.
  unfold mapContacts. destruct (splitLines csv) as [|line0 rest];
    [discriminate |].
  cbv zeta.
  destruct ((indexOfColumn (mapHeaders line0) n =? -1)%Z
            || (indexOfColumn (mapHeaders line0) p =? -1)%Z);
    [discriminate |].
  intros H. injection H as <-. apply Forall_forall. intros c Hc.
  exact (mapRows_rule (detectDelimiter line0)
           (indexOfColumn (mapHeaders line0) n)
           (indexOfColumn (mapHeaders line0) p) rest c Hc).
Qed.

Lemma file_contacts_validity_rule_witness :
  exists cs,
    mapContacts (Some (lit "Nome")) (Some (lit "Telefone"))
      (lit "Nome,Telefone\\nAna,11999998888\\nBia,999998888") = Ok cs
    /\ length cs = 2
    /\ Forall (fun c =>
                 (isValid c = true <-> 12 <= length (phoneNumber c))
                 /\ (startsWith (lit "55") (phoneNumber c) = true
                     \/ 12 < length (phoneNumber c))) cs.
Proof.
  eexists. split; [vm_compute; reflexivity |].
  split; [reflexivity |].
  apply (file_contacts_validity_rule (Some (lit "Nome"))
           (Some (lit "Telefone"))
           (lit "Nome,Telefone\\nAna,11999998888\\nBia,999998888")).
  vm_compute. reflexivity.
Defined.

(** X7. When the mapping succeeds, the names of the contacts are, in the
    order of the file, the name cells of the data lines that have a cell at
    both selected indices; a line with too few cells gives no contact and
    does not stop the mapping.  The blank-line test inside the loop never
    applies, the lines being filtered before. *)
Theorem file_contacts_follow_rows
  (n p : option jsstring) (csv line0 : jsstring) (rest : list jsstring)
  (cs : list ContactImport) :
  splitLines csv = line0 :: rest ->
  mapContacts n p csv = Ok cs ->
  let delimiter := detectDelimiter line0 in
  let nameIndex := indexOfColumn (mapHeaders line0) n in
  let phoneIndex := indexOfColumn (mapHeaders line0) p in
  (0 <= nameIndex)%Z /\ (0 <= phoneIndex)%Z
  /\ map name cs
     = map (fun line => nth (Z.to_nat nameIndex) (splitRow delimiter line) [])
         (filter (fun line =>
                    (Z.max nameIndex phoneIndex
                     <? Z.of_nat (length (splitRow delimiter line)))%Z)
            rest)
  /\ length cs <= length rest.
Proof.
  intros Hlines Hmap. cbv zeta.
  unfold mapContacts in Hmap. rewrite Hlines in Hmap. cbv zeta in Hmap.
  destruct (indexOfColumn (mapHeaders line0) n =? -1)%Z eqn:En;
    [discriminate |].
  destruct (indexOfColumn (mapHeaders line0) p =? -1)%Z eqn:Ep;
    [discriminate |].
  cbn [orb] in Hmap. injection Hmap as <-.
  apply Z.eqb_neq in En, Ep.
  assert (Hrest : Forall (fun line => (0 <? length (trim line)) = true) rest).
  { apply Forall_forall. intros line Hin.
    apply (splitLines_not_blank csv). rewrite Hlines. right. exact Hin. }
  pose proof (mapRows_as_filter (detectDelimiter line0)
                (indexOfColumn (mapHeaders line0) n)
                (indexOfColumn (mapHeaders line0) p) rest Hrest) as Hnames.
  split; [destruct (indexOfColumn_range (mapHeaders line0) n); [contradiction | assumption] |].
  split; [destruct (indexOfColumn_range (mapHeaders line0) p); [contradiction | assumption] |].
  split; [exact Hnames |].
  apply (f_equal (@length _)) in Hnames. rewrite !length_map in Hnames.
  rewrite Hnames. apply filter_length_le.
Qed.

Lemma file_contacts_follow_rows_witness :
  let csv :=
    lit "Nome,Telefone\\nAna,11999998888\\nsem telefone\\nBia,999998888" in
  let cs := [ {| name := lit "Ana"; phoneNumber := lit "5511999998888";
                 isValid := true |};
              {| name := lit "Bia"; phoneNumber := lit "55999998888";
                 isValid := false |} ] in
  let delimiter := detectDelimiter (lit "Nome,Telefone") in
  let nameIndex :=
    indexOfColumn (mapHeaders (lit "Nome,Telefone")) (Some (lit "Nome")) in
  let phoneIndex :=
    indexOfColumn (mapHeaders (lit "Nome,Telefone")) (Some (lit "Telefone")) in
  let rest := [lit "Ana,11999998888"; lit "sem telefone";
               lit "Bia,999998888"] in
  (0 <= nameIndex)%Z /\ (0 <= phoneIndex)%Z
  /\ map name cs
     = map (fun line => nth (Z.to_nat nameIndex) (splitRow delimiter line) [])
         (filter (fun line =>
                    (Z.max nameIndex phoneIndex
                     <? Z.of_nat (length (splitRow delimiter line)))%Z)
            rest)
  /\ length cs <= length rest.
Proof.
  intros csv cs delimiter nameIndex phoneIndex rest.
  apply (file_contacts_follow_rows (Some (lit "Nome"))
           (Some (lit "Telefone")) csv (lit "Nome,Telefone") rest cs).
  - vm_compute. reflexivity.
  - vm_compute. reflexivity.
Defined.

(* ================================================================== *)
(** ** Beyond the claims: the handlers of the importer *)
(* ================================================================== *)

Section Handlers.

Variable toLowerCase : jsstring -> jsstring.

Lemma endsWith_true_iff (p s : jsstring) :
  endsWith p s = true <-> exists pre, s = pre ++ p.
Proof.
  unfold endsWith. rewrite startsWith_true_iff. split.
  - intros [t Ht]. exists (rev t).
    apply (f_equal (@rev _)) in Ht.
    rewrite rev_involutive, rev_app_distr, rev_involutive in Ht. exact Ht.
  - intros [pre ->]. exists (rev pre). apply rev_app_distr.
Qed.


Lemma splitGo_pieces (m : jsstring -> option nat) (s : jsstring) :
  forall skip cur piece x,
    In piece (splitGo m skip cur s) -> In x piece -> In x cur \/ In x s.
Proof.
  induction s as [|c s IH]; intros skip cur piece x Hp Hx; cbn [splitGo] in Hp.
  - destruct Hp as [<- | []]. left. apply in_rev. exact Hx.
  - destruct skip as [|k].
    + destruct (m (c :: s)) as [[|n] |].
      * destruct (IH 0 (c :: cur) piece x Hp Hx) as [[<- | H] | H];
          [right; left; reflexivity | left; exact H | right; right; exact H].
      * destruct Hp as [<- | Hp].
        -- left. apply in_rev. exact Hx.
        -- destruct (IH n [] piece x Hp Hx) as [[] | H]. right; right; exact H.
      * destruct (IH 0 (c :: cur) piece x Hp Hx) as [[<- | H] | H];
          [right; left; reflexivity | left; exact H | right; right; exact H].
    + destruct (IH k cur piece x Hp Hx) as [H | H];
        [left; exact H | right; right; exact H].
Qed.

Lemma digitsOnly_nil_iff (s : jsstring) :
  digitsOnly s = [] <-> forall x, In x s -> isDigit x = false.
Proof.
  unfold digitsOnly. induction s as [|c s IH]; cbn [filter].
  - split; [intros _ x [] | reflexivity].
  - destruct (isDigit c) eqn:E.
    + split; [discriminate |].
      intros H. rewrite (H c (or_introl eq_refl)) in E. discriminate.
    + rewrite IH. split.
      * intros H x [<- | Hx]; [exact E | exact (H x Hx)].
      * intros H x Hx. apply H. right. exact Hx.
Qed.

Lemma filter_none {A} (f : A -> bool) (l : list A) :
  Forall (fun a => f a = false) l -> filter f l = [].
Proof.
  induction 1 as [|a l Ha Hl IH]; [reflexivity |].
  cbn [filter]. rewrite Ha. exact IH.
Qed.

Lemma mapDirectInput_no_digit (value : jsstring) :
  digitsOnly value = [] -> mapDirectInput value = [].
Proof.
  intros Hnone. unfold mapDirectInput. rewrite directNumbers_eq.
  rewrite filter_none; [reflexivity |].
  apply Forall_forall. intros n Hn. apply in_map_iff in Hn.
  destruct Hn as [piece [<- Hpiece]].
  replace (digitsOnly piece) with (@nil codeUnit); [reflexivity |].
  symmetry. apply digitsOnly_nil_iff. intros x Hx.
  unfold split, splitBy in Hpiece.
  destruct (splitGo_pieces _ _ _ _ _ _ Hpiece Hx) as [[] | Hv].
  exact (proj1 (digitsOnly_nil_iff value) Hnone x Hv).
Qed.

Lemma length_filter_negb {A} (f : A -> bool) (l : list A) :
  length (filter f l) + length (filter (fun a => negb (f a)) l) = length l.
Proof.
  induction l as [|a l IH]; [reflexivity |].
  cbn [filter]. destruct (f a); cbn [negb length]; lia.
Qed.

Lemma filter_nil_iff {A} (f : A -> bool) (l : list A) :
  filter f l = [] <-> Forall (fun a => f a = false) l.
Proof.
  split; [| apply filter_none].
  induction l as [|a l IH]; [constructor |].
  cbn [filter]. destruct (f a) eqn:E; [discriminate |].
  intros H. constructor; [exact E | exact (IH H)].
Qed.

End Handlers.

(** X8. The handler that ends processCSV works with the column selections of
    the render that started the read, not with the ones it has just set.
    When a column is not chosen in that render, as in the first one, a parse
    that succeeds stores the headers, the preview rows and the new
    selections, but starts no mapping: the handler reports "Selecao de
    colunas necessaria", and the step and the batch stay as they were. *)
Theorem parse_without_chosen_columns
  (toLowerCase : jsstring -> jsstring) (r s : State) (csv : jsstring)
  (p : Parsed) :
  parseCSV toLowerCase csv = Ok p ->
  chosen (nameColumn r) = false \/ chosen (phoneColumn r) = false ->
  previewLoaded toLowerCase r s csv
  = {| next := setPhoneColumn (selectedPhone p)
                 (setNameColumn (selectedName p)
                    (setIsProcessing false
                       (setPreviewData (preview p)
                          (setColumns (headers p) s))));
       effects := [Toast SelecaoDeColunasNecessaria];
       reads := [] |}
  /\ step (next (previewLoaded toLowerCase r s csv)) = step s
  /\ contacts (next (previewLoaded toLowerCase r s csv)) = contacts s
  /\ isProcessing (next (previewLoaded toLowerCase r s csv)) = false.
Proof.
  intros Hp Hr.
  assert (E : negb (chosen (nameColumn r)) || negb (chosen (phoneColumn r))
              = true).
  { destruct Hr as [-> | ->]; [reflexivity | apply orb_true_r]. }
  unfold previewLoaded. rewrite Hp. unfold validateAndMapContacts.
  rewrite E. repeat split.
Qed.

Lemma parse_without_chosen_columns_witness :
  let csv := lit "Nome,Telefone" in
  step (next (previewLoaded asciiLowerCase initialState
                (setIsProcessing true (setOpen true initialState)) csv))
  = Upload
  /\ effects (previewLoaded asciiLowerCase initialState
                (setIsProcessing true (setOpen true initialState)) csv)
     = [Toast SelecaoDeColunasNecessaria].
Proof.
  intros csv.
  destruct (parse_without_chosen_columns asciiLowerCase initialState
              (setIsProcessing true (setOpen true initialState)) csv
              {| headers := [lit "Nome"; lit "Telefone"];
                 preview := [[lit "Nome"; lit "Telefone"]];
                 selectedName := Some (lit "Nome");
                 selectedPhone := Some (lit "Telefone") |})
    as (E & Hs & _ & _).
  - vm_compute. reflexivity.
  - left. reflexivity.
  - split; [exact Hs |]. rewrite E. reflexivity.
Defined.

(** X9. When both columns are chosen in the render that started the read of
    processCSV, a parse that succeeds is followed by a mapping of the file of
    that render, the selection before the file just parsed: the read is
    started on it and isProcessing is set.  When that render has no file, the
    handler reports "Erro ao processar arquivo" and starts no read. *)
Theorem parse_then_map_previous_file
  (toLowerCase : jsstring -> jsstring) (r s : State) (csv : jsstring)
  (p : Parsed) :
  parseCSV toLowerCase csv = Ok p ->
  chosen (nameColumn r) = true -> chosen (phoneColumn r) = true ->
  match file r with
  | Some previous =>
      reads (previewLoaded toLowerCase r s csv) = [ReadForMapping r previous]
      /\ effects (previewLoaded toLowerCase r s csv) = []
      /\ isProcessing (next (previewLoaded toLowerCase r s csv)) = true
  | None =>
      reads (previewLoaded toLowerCase r s csv) = []
      /\ effects (previewLoaded toLowerCase r s csv)
         = [Toast ErroAoProcessarArquivo]
      /\ isProcessing (next (previewLoaded toLowerCase r s csv)) = false
  end.
Proof.
  intros Hp Hn Hph. unfold previewLoaded. rewrite Hp.
  unfold validateAndMapContacts. rewrite Hn, Hph. cbn [negb orb].
  destruct (file r); repeat split.
Qed.

Lemma parse_then_map_previous_file_witness :
  let old := {| fileName := lit "old.csv"; fileType := lit "text/csv";
                fileText := lit "a,b"; sliceTexts := [lit "a,b"] |} in
  let r := setFile (Some old)
             (setPhoneColumn (Some (lit "b"))
                (setNameColumn (Some (lit "a")) initialState)) in
  reads (previewLoaded asciiLowerCase r r (lit "Nome,Telefone"))
  = [ReadForMapping r old]
  /\ effects (previewLoaded asciiLowerCase r r (lit "Nome,Telefone")) = []
  /\ isProcessing (next (previewLoaded asciiLowerCase r r
                           (lit "Nome,Telefone"))) = true.
Proof.
  intros old r.
  apply (parse_then_map_previous_file asciiLowerCase r r (lit "Nome,Telefone")
           {| headers := [lit "Nome"; lit "Telefone"];
              preview := [[lit "Nome"; lit "Telefone"]];
              selectedName := Some (lit "Nome");
              selectedPhone := Some (lit "Telefone") |}).
  - vm_compute. reflexivity.
  - reflexivity.
  - reflexivity.
Defined.

(** X10. handleFileChange accepts a file exactly when its type is "text/csv"
    or its name ends in ".csv".  An accepted file is stored, isProcessing is
    set and one read is started, without a notification; a rejected file is
    stored all the same, but no read is started and "Formato invalido" is
    reported.  Without a file nothing happens. *)
Theorem handleFileChange_accepts_csv (r s : State) (f : File) :
  let o := handleFileChange r s (Some f) in
  let accepted := fileType f = lit "text/csv"
                  \/ exists pre, fileName f = pre ++ lit ".csv" in
  file (next o) = Some f
  /\ (accepted ->
      o = {| next := setIsProcessing true (setFile (Some f) s);
             effects := []; reads := [ReadForPreview r f] |})
  /\ (~ accepted ->
      o = {| next := setFile (Some f) s;
             effects := [Toast FormatoInvalido]; reads := [] |})
  /\ handleFileChange r s None = {| next := s; effects := []; reads := [] |}.
Proof.
  cbv zeta. unfold handleFileChange, processCSV.
  destruct (strEq (fileType f) (lit "text/csv")) eqn:Et;
    destruct (endsWith (lit ".csv") (fileName f)) eqn:En; cbn [negb andb];
    (split; [reflexivity |]); (split; [| split; [| reflexivity]]);
    try (intros _; reflexivity);
    try (intros Hacc; exfalso; apply Hacc);
    try (left; apply strEq_true_iff; exact Et);
    try (right; apply endsWith_true_iff; exact En).
  intros [Ht | He].
  - apply strEq_true_iff in Ht. rewrite Ht in Et. discriminate.
  - apply endsWith_true_iff in He. rewrite He in En. discriminate.
Qed.

Lemma handleFileChange_accepts_csv_witness :
  let f := {| fileName := lit "contatos.csv"; fileType := [];
              fileText := lit "a,b"; sliceTexts := [lit "a,b"] |} in
  handleFileChange initialState initialState (Some f)
  = {| next := setIsProcessing true (setFile (Some f) initialState);
       effects := []; reads := [ReadForPreview initialState f] |}.
Proof.
  intros f.
  apply (proj1 (proj2 (handleFileChange_accepts_csv initialState
                         initialState f))).
  right. exists (lit "contatos"). vm_compute. reflexivity.
Defined.

(** X11. On the direct-input path every phone number starts with "55", is
    made of ASCII digits, and is the name of the contact or the name with
    "55" in front; a valid contact has a phone number of at least ten code
    units. *)
Theorem direct_phone_prefixed (value : jsstring) :
  Forall (fun c =>
            startsWith (lit "55") (phoneNumber c) = true
            /\ allDigits (phoneNumber c) = true
            /\ (phoneNumber c = name c \/ phoneNumber c = lit "55" ++ name c)
            /\ validLongEnough c)
    (mapDirectInput value).
Proof.
  pose proof (direct_phone_allDigits value) as Hd.
  rewrite Forall_forall in Hd |- *. intros c Hc.
  specialize (Hd c Hc). unfold mapDirectInput in Hc.
  apply in_map_iff in Hc. destruct Hc as [n [<- _]].
  unfold validLongEnough, directContact in *.
  cbn [phoneNumber name isValid] in *.
  destruct (startsWith (lit "55") n) eqn:E.
  - repeat split; auto. intros H. apply Nat.leb_le. exact H.
  - repeat split; auto. intros H. apply Nat.leb_le in H.
    rewrite length_app. lia.
Qed.

(** X12. Pasting a text without any digit empties the batch, whatever it
    held, and leaves the step as it is. *)
Theorem paste_without_digit_clears_batch (s : State) (value : jsstring) :
  digitsOnly value = [] ->
  directChange s value
  = {| next := setContacts [] s; effects := []; reads := [] |}.
Proof.
  intros H. unfold directChange. cbv zeta.
  rewrite (mapDirectInput_no_digit value H). reflexivity.
Qed.

Lemma paste_without_digit_clears_batch_witness :
  let s := setStep Preview
             (setContacts (mapDirectInput (lit "11999998888")) initialState) in
  directChange s (lit "sem numero")
  = {| next := setContacts [] s; effects := []; reads := [] |}.
Proof.
  intros s. apply (paste_without_digit_clears_batch s (lit "sem numero")).
  vm_compute. reflexivity.
Defined.



(** X14. The counts of the preview step split the batch: the valid and the
    invalid count add up to the size of the batch, the invalid count is the
    number of contacts that are not valid, and the import buttons are
    disabled exactly when no contact of the batch is valid. *)
Theorem preview_counts_split_batch (s : State) :
  validCount s + invalidCount s = length (contacts s)
  /\ invalidCount s
     = length (filter (fun c => negb (isValid c)) (contacts s))
  /\ (importDisabled s = true
      <-> Forall (fun c => isValid c = false) (contacts s)).
Proof.
  unfold invalidCount, validCount, importDisabled.
  pose proof (length_filter_negb isValid (contacts s)) as H.
  split; [lia | split; [lia |]].
  rewrite <- filter_nil_iff.
  destruct (filter isValid (contacts s)); simpl; split;
    intros E; try discriminate; reflexivity.
Qed.

(* ================================================================== *)
(** ** Beyond the claims: what every reachable configuration satisfies *)
(* ================================================================== *)

Section Invariants.

Variable toLowerCase : jsstring -> jsstring.



Lemma validateAndMapContacts_busy (r s : State) :
  isProcessing s = false ->
  isProcessing (next (validateAndMapContacts r s)) = true ->
  reads (validateAndMapContacts r s) <> [].
Proof.
  unfold validateAndMapContacts.
  destruct (negb (chosen (nameColumn r)) || negb (chosen (phoneColumn r)));
    [| destruct (file r)]; cbn [next reads]; intros Hs H.
  - rewrite Hs in H. discriminate.
  - discriminate.
  - discriminate H.
Qed.

Lemma previewLoaded_busy (r s : State) (csv : jsstring) :
  isProcessing (next (previewLoaded toLowerCase r s csv)) = true ->
  reads (previewLoaded toLowerCase r s csv) <> [].
Proof.
  unfold previewLoaded. destruct (parseCSV toLowerCase csv) as [p |].
  - apply validateAndMapContacts_busy. reflexivity.
  - cbn [next]. intros H. discriminate H.
Qed.

Lemma mappingLoaded_idle (r s : State) (csv : jsstring) :
  isProcessing (next (mappingLoaded r s csv)) = false.
Proof.
  unfold mappingLoaded.
  destruct (mapContacts (nameColumn r) (phoneColumn r) csv); reflexivity.
Qed.

Lemma app_not_nil_r {A} (l l' : list A) : l' <> [] -> l ++ l' <> [].
Proof. intros H E. apply app_eq_nil in E. tauto. Qed.

Lemma app_not_nil_l {A} (l l' : list A) : l <> [] -> l ++ l' <> [].
Proof. intros H E. apply app_eq_nil in E. tauto. Qed.

Ltac open_guard H :=
  match type of H with
  | (if ?g then _ else _) = _ =>
      lazymatch type of g with
      | bool => let G := fresh "G" in
                destruct g eqn:G; [| discriminate H]
      end
  end.

Ltac ands G :=
  repeat match type of G with
         | (_ && _) = true =>
             let G' := fresh "G" in
             apply andb_true_iff in G; destruct G as [G G']
         end.

(** One step keeps: the indicator is on only while a read is in flight. *)
Lemma fire_busy (c c' : Config) (ev : Event) (eff : list Effect) :
  (isProcessing (ui c) = true -> pending c <> []) ->
  fire toLowerCase ev c = Some (c', eff) ->
  isProcessing (ui c') = true -> pending c' <> [].
Proof.
  intros Hinv Hfire.
  destruct ev; unfold fire in Hfire; cbv zeta in Hfire; try open_guard Hfire;
    try (unfold finish in Hfire; injection Hfire as <- _;
         cbn [ui pending only next reads]; rewrite ?app_nil_r).
  - destruct newOpen; cbn; [exact Hinv | discriminate].
  - exact Hinv.
  - ands G. apply negb_true_iff in G0.
    unfold handleFileChange, processCSV. destruct selected as [f |].
    + destruct (negb (strEq (fileType f) (lit "text/csv"))
                && negb (endsWith (lit ".csv") (fileName f)));
        cbn [next reads isProcessing setFile setIsProcessing].
      * rewrite G0. discriminate.
      * intros _. apply app_not_nil_r. discriminate.
    + cbn [next reads]. rewrite ?app_nil_r. exact Hinv.
  - exact Hinv.
  - exact Hinv.
  - exact Hinv.
  - ands G. apply negb_true_iff in G0. intros H.
    apply app_not_nil_r. exact (validateAndMapContacts_busy _ _ G0 H).
  - exact Hinv.
  - unfold handleConfirm. cbv zeta.
    destruct (length (filter isValid (contacts (ui c))) =? 0);
      cbn [next reads]; rewrite ?app_nil_r; [exact Hinv | discriminate].
  - unfold directChange. cbv zeta.
    destruct (0 <? length (mapDirectInput value));
      cbn [next reads]; rewrite ?app_nil_r; exact Hinv.
  - unfold directSend. cbv zeta.
    destruct (0 <? length (filter isValid (contacts (ui c))));
      cbn [next reads]; rewrite ?app_nil_r; [discriminate | exact Hinv].
  - destruct (nth_error (pending c) i) as [[r f | r f] |];
      [| | discriminate Hfire];
      unfold finishRead in Hfire; injection Hfire as <- _;
      cbn [ui pending]; intros H.
    + apply app_not_nil_r. exact (previewLoaded_busy _ _ _ H).
    + rewrite mappingLoaded_idle in H. discriminate.
  - destruct (nth_error (pending c) i); [| discriminate Hfire].
    unfold finishRead in Hfire; injection Hfire as <- _.
    cbn [ui pending readFailed next]. discriminate.
Qed.


Lemma mapContacts_validLongEnough (n p : option jsstring) (csv : jsstring)
  (cs : list ContactImport) :
  mapContacts n p csv = Ok cs -> Forall validLongEnough cs.
Proof.
  intros H. eapply Forall_impl; [| exact (mapContacts_rule n p csv cs H)].
  intros c [Hv _] Hc. apply Hv in Hc. lia.
Qed.

Lemma mapDirectInput_validLongEnough (value : jsstring) :
  Forall validLongEnough (mapDirectInput value).
Proof.
  unfold mapDirectInput. apply Forall_forall. intros c Hc.
  apply in_map_iff in Hc. destruct Hc as [n [<- _]].
  unfold validLongEnough, directContact. cbn [phoneNumber isValid].
  intros H. apply Nat.leb_le in H.
  destruct (startsWith (lit "55") n); [exact H |].
  rewrite length_app. lia.
Qed.

(** One step keeps: a valid contact of the batch has a phone number of at
    least ten code units. *)
Lemma fire_batch (c c' : Config) (ev : Event) (eff : list Effect) :
  Forall validLongEnough (contacts (ui c)) ->
  fire toLowerCase ev c = Some (c', eff) ->
  Forall validLongEnough (contacts (ui c')).
Proof.
  intros Hinv Hfire.
  destruct ev; unfold fire in Hfire; cbv zeta in Hfire; try open_guard Hfire;
    try (unfold finish in Hfire; injection Hfire as <- _;
         cbn [ui only next]).
  - destruct newOpen; [exact Hinv | constructor].
  - exact Hinv.
  - unfold handleFileChange, processCSV. destruct selected as [f |];
      [| exact Hinv].
    destruct (negb (strEq (fileType f) (lit "text/csv"))
              && negb (endsWith (lit ".csv") (fileName f))); exact Hinv.
  - exact Hinv.
  - exact Hinv.
  - exact Hinv.
  - destruct (validateAndMapContacts_columns (ui c) (ui c))
      as (_ & _ & _ & -> & _).
    exact Hinv.
  - exact Hinv.
  - unfold handleConfirm. cbv zeta.
    destruct (length (filter isValid (contacts (ui c))) =? 0);
      [exact Hinv | constructor].
  - unfold directChange. cbv zeta.
    destruct (0 <? length (mapDirectInput value));
      apply mapDirectInput_validLongEnough.
  - unfold directSend. cbv zeta.
    destruct (0 <? length (filter isValid (contacts (ui c))));
      [constructor | exact Hinv].
  - destruct (nth_error (pending c) i) as [[r f | r f] |];
      [| | discriminate Hfire];
      unfold finishRead in Hfire; injection Hfire as <- _; cbn [ui].
    + unfold previewLoaded.
      destruct (parseCSV toLowerCase (joinChunks f)) as [p |];
        [| exact Hinv].
      destruct (validateAndMapContacts_columns r
                  (setPhoneColumn (selectedPhone p)
                     (setNameColumn (selectedName p)
                        (setIsProcessing false
                           (setPreviewData (preview p)
                              (setColumns (headers p) (ui c)))))))
        as (_ & _ & _ & -> & _).
      exact Hinv.
    + unfold mappingLoaded.
      destruct (mapContacts (nameColumn r) (phoneColumn r) (fileText f))
        as [mapped | e] eqn:E; [| exact Hinv].
      exact (mapContacts_validLongEnough _ _ _ _ E).
  - destruct (nth_error (pending c) i); [| discriminate Hfire].
    unfold finishRead in Hfire; injection Hfire as <- _. exact Hinv.
Qed.

(** What a step passes to the callback is the valid part of the batch. *)
Lemma fire_callback (c c' : Config) (ev : Event) (eff : list Effect)
  (v : list ContactImport) :
  fire toLowerCase ev c = Some (c', eff) ->
  In (OnComplete v) eff ->
  v = filter isValid (contacts (ui c)).
Proof.
  intros Hfire Hin.
  destruct ev; unfold fire in Hfire; cbv zeta in Hfire; try open_guard Hfire;
    try (unfold finish in Hfire; injection Hfire as _ <-);
    try (destruct Hin; fail).
  - exfalso. exact (handleFileChange_toasts _ _ _ _ Hin).
  - exfalso. exact (validateAndMapContacts_toasts _ _ _ Hin).
  - exact (proj1 (handleConfirm_callback _ _ _ Hin)).
  - exact (proj1 (directSend_callback _ _ _ Hin)).
  - destruct (nth_error (pending c) i) as [[r f | r f] |];
      [| | discriminate Hfire];
      unfold finishRead in Hfire; injection Hfire as _ <-; exfalso.
    + exact (previewLoaded_toasts _ _ _ _ _ Hin).
    + exact (mappingLoaded_toasts _ _ _ _ Hin).
  - destruct (nth_error (pending c) i); [| discriminate Hfire].
    unfold finishRead in Hfire; injection Hfire as _ <-.
    destruct Hin as [H | []]. discriminate.
Qed.

Lemma reachable_batch (c : Config) :
  reachable toLowerCase c -> Forall validLongEnough (contacts (ui c)).
Proof.
  induction 1 as [| c ev c' eff _ IH Hfire]; [constructor |].
  exact (fire_batch c c' ev eff IH Hfire).
Qed.

End Invariants.

(** X15. In every configuration the importer can reach, the processing
    indicator is on only while a file read is in flight: when isProcessing is
    true, some read has been started whose callback has not run yet. *)
Theorem processing_only_while_reading
  (toLowerCase : jsstring -> jsstring) (c : Config) :
  reachable toLowerCase c ->
  isProcessing (ui c) = true -> pending c <> [].
Proof.
  induction 1 as [| c ev c' eff _ IH Hfire].
  - discriminate.
  - exact (fire_busy toLowerCase c c' ev eff IH Hfire).
Qed.

Lemma processing_only_while_reading_witness :
  let f := {| fileName := lit "contatos.csv"; fileType := lit "text/csv";
              fileText := lit "a,b"; sliceTexts := [lit "a,b"] |} in
  let c := {| ui := setIsProcessing true
                      (setFile (Some f) (setOpen true initialState));
              pending := [ReadForPreview (setOpen true initialState) f] |} in
  pending c <> [].
Proof.
  intros f c.
  apply (processing_only_while_reading asciiLowerCase c).
  - apply (reachable_step asciiLowerCase
             {| ui := setOpen true initialState; pending := [] |}
             (FileChange (Some f)) c []).
    + apply (reachable_step asciiLowerCase initialConfig (OpenChange true)
               {| ui := setOpen true initialState; pending := [] |} []).
      * apply reachable_init.
      * vm_compute. reflexivity.
    + vm_compute. reflexivity.
  - reflexivity.
Defined.



(** X17. In every configuration the importer can reach, a valid contact of
    the batch has a phone number of at least ten code units, whichever path
    built the batch; so every contact a step passes to the completion
    callback has a phone number of at least ten code units. *)
Theorem forwarded_phone_long_enough
  (toLowerCase : jsstring -> jsstring) (c : Config) :
  reachable toLowerCase c ->
  Forall validLongEnough (contacts (ui c))
  /\ forall ev c' eff v,
       fire toLowerCase ev c = Some (c', eff) ->
       In (OnComplete v) eff ->
       Forall (fun x => 10 <= length (phoneNumber x)) v.
Proof.
  intros Hreach. pose proof (reachable_batch toLowerCase c Hreach) as Hb.
  split; [exact Hb |].
  intros ev c' eff v Hfire Hin.
  rewrite (fire_callback toLowerCase c c' ev eff v Hfire Hin).
  rewrite Forall_forall in Hb |- *. intros x Hx.
  apply filter_In in Hx. destruct Hx as [Hx Hv].
  exact (Hb x Hx Hv).
Qed.

Lemma forwarded_phone_long_enough_witness :
  let c := {| ui := setStep Preview
                      (setContacts (mapDirectInput (lit "11999998888"))
                         (setOpen true initialState));
              pending := [] |} in
  Forall validLongEnough (contacts (ui c))
  /\ forall ev c' eff v,
       fire asciiLowerCase ev c = Some (c', eff) ->
       In (OnComplete v) eff ->
       Forall (fun x => 10 <= length (phoneNumber x)) v.
Proof.
  intros c.
  apply (forwarded_phone_long_enough asciiLowerCase c).
  apply (reachable_step asciiLowerCase
           {| ui := setOpen true initialState; pending := [] |}
           (DirectChange (lit "11999998888")) c []).
  - apply (reachable_step asciiLowerCase initialConfig (OpenChange true)
             {| ui := setOpen true initialState; pending := [] |} []).
    + apply reachable_init.
    + vm_compute. reflexivity.
  - vm_compute. reflexivity.
Defined.

(* ================================================================== *)
(** ** Beyond the claims: the rich text editor *)
(* ================================================================== *)

Section Editor.

(** [formatText] replaces the selection by what its switch builds. *)
Lemma formatText_formattedText (value : jsstring) (ta : TextArea)
  (url : option jsstring) (formatter : jsstring) :
  formatText value (Some ta) url formatter
  = option_map
      (fun formatted =>
         substring value 0 (selectionStart ta) ++ formatted
         ++ substringFrom value (selectionEnd ta))
      (formattedText
         (substring value (selectionStart ta) (selectionEnd ta))
         url formatter).
Proof.
  unfold formatText, formattedText.
  destruct (strEq formatter (lit "bold")); [reflexivity |].
  destruct (strEq formatter (lit "italic")); [reflexivity |].
  destruct (strEq formatter (lit "strikethrough")); [reflexivity |].
  destruct (strEq formatter (lit "link")); [| reflexivity].
  destruct url as [[|c u] |]; try reflexivity.
Qed.

Lemma length_firstn_le {A} (n : nat) (l : list A) :
  n <= length l -> length (firstn n l) = n.
Proof. intros H. rewrite length_firstn. lia. Qed.

Lemma firstn_app_exact {A} (l l' : list A) (n : nat) :
  n = length l -> firstn n (l ++ l') = l.
Proof.
  intros ->. rewrite firstn_app, Nat.sub_diag, firstn_all. simpl.
  apply app_nil_r.
Qed.

Lemma skipn_app_exact {A} (l l' : list A) (n : nat) :
  n = length l -> skipn n (l ++ l') = l'.
Proof.
  intros ->. rewrite skipn_app, Nat.sub_diag, skipn_all. reflexivity.
Qed.

End Editor.

(** X18. insertVariable and insertContactMention put their text at the start
    of the selection and nowhere else.  With the selection start inside the
    value, the new value is the text before it, the inserted text (the
    variable, or "@" and the contact's name) and the text from it on; it is
    longer by the inserted text; the caret goes right behind the inserted
    text; and cutting the inserted text out gives the old value back.
    Without a textarea nothing is inserted. *)
Theorem insertion_at_selection_start
  (value inserted : jsstring) (start end_ : nat) :
  start <= length value ->
  let ta := {| selectionStart := start; selectionEnd := end_ |} in
  let newValue := firstn start value ++ inserted ++ skipn start value in
  let caret := start + length inserted in
  insertVariable value (Some ta) inserted = Some (newValue, caret)
  /\ (forall contactName, inserted = lit "@" ++ contactName ->
        insertContactMention value (Some ta) contactName
        = Some (newValue, caret))
  /\ length newValue = length value + length inserted
  /\ firstn caret newValue = firstn start value ++ inserted
  /\ skipn caret newValue = skipn start value
  /\ firstn start newValue ++ skipn caret newValue = value
  /\ insertVariable value None inserted = None
  /\ (forall contactName, insertContactMention value None contactName = None).
Proof.
  intros Hstart. cbv zeta.
  assert (Hlen : length (firstn start value) = start)
    by (apply length_firstn_le; exact Hstart).
  split; [| split; [| split; [| split; [| split; [| split; [| split]]]]]].
  - unfold insertVariable. cbn [selectionStart].
    rewrite substring_prefix, substringFrom_suffix. reflexivity.
  - intros contactName ->. unfold insertContactMention. cbn [selectionStart].
    rewrite substring_prefix, substringFrom_suffix. reflexivity.
  - rewrite !length_app, Hlen, length_skipn. lia.
  - rewrite app_assoc. apply firstn_app_exact.
    rewrite length_app, Hlen. reflexivity.
  - rewrite app_assoc. apply skipn_app_exact.
    rewrite length_app, Hlen. reflexivity.
  - rewrite (firstn_app_exact (firstn start value)) by (symmetry; exact Hlen).
    rewrite app_assoc, (skipn_app_exact (firstn start value ++ inserted))
      by (rewrite length_app, Hlen; reflexivity).
    apply firstn_skipn.
  - reflexivity.
  - reflexivity.
Qed.

Lemma insertion_at_selection_start_witness :
  insertVariable (lit "Ola , tudo bem?")
    (Some {| selectionStart := 4; selectionEnd := 4 |}) (lit "{{nome}}")
  = Some (lit "Ola {{nome}}, tudo bem?", 12).
Proof.
  apply (proj1 (insertion_at_selection_start (lit "Ola , tudo bem?")
                  (lit "{{nome}}") 4 4 ltac:(vm_compute; lia))).
Defined.

(** X19. For a selection inside the value, bold, italic and strikethrough make
    the value longer by the two markers and put the caret right behind the
    closing marker: the text behind the caret is the text that was behind the
    selection, and the text before the caret is the old text up to the end of
    the selection with the two markers added. *)
Theorem formatText_caret_behind_marker
  (value : jsstring) (start end_ : nat) (url : option jsstring)
  (formatter marker : jsstring) :
  start <= end_ -> end_ <= length value ->
  In (formatter, marker)
     [(lit "bold", lit "*"); (lit "italic", lit "_");
      (lit "strikethrough", lit "~")] ->
  let ta := {| selectionStart := start; selectionEnd := end_ |} in
  exists newValue,
    formatText value (Some ta) url formatter = Some newValue
    /\ formatTextCaret value (Some ta) url formatter = Some (end_ + 2)
    /\ length newValue = length value + 2
    /\ skipn (end_ + 2) newValue = skipn end_ value
    /\ firstn (end_ + 2) newValue
       = firstn start value ++ marker ++ skipn start (firstn end_ value)
         ++ marker.
Proof.
  intros Hse Hend Hin. cbv zeta.
  assert (Hsel : length (skipn start (firstn end_ value)) = end_ - start)
    by (rewrite length_skipn, length_firstn; lia).
  assert (Hpre : length (firstn start value) = start)
    by (apply length_firstn_le; lia).
  assert (Hm : length marker = 1)
    by (destruct Hin as [E | [E | [E | []]]]; inversion E; reflexivity).
  assert (Hf : formattedText (substring value start end_) url formatter
               = Some (marker ++ skipn start (firstn end_ value) ++ marker)).
  { rewrite substring_ordered by exact Hse.
    destruct Hin as [E | [E | [E | []]]]; inversion E; subst; reflexivity. }
  exists (firstn start value
          ++ (marker ++ skipn start (firstn end_ value) ++ marker)
          ++ skipn end_ value).
  assert (Hmid : length (firstn start value
                         ++ marker ++ skipn start (firstn end_ value)
                         ++ marker) = end_ + 2)
    by (rewrite !length_app, Hpre, Hsel, Hm; lia).
  split; [| split; [| split; [| split]]].
  - rewrite formatText_formattedText. cbn [selectionStart selectionEnd].
    rewrite Hf. cbn [option_map].
    rewrite substring_prefix, substringFrom_suffix. reflexivity.
  - unfold formatTextCaret. cbn [selectionStart selectionEnd]. rewrite Hf.
    f_equal. rewrite !length_app, Hsel, Hm. lia.
  - rewrite !length_app, Hpre, Hsel, Hm, length_skipn. lia.
  - replace (firstn start value
             ++ (marker ++ skipn start (firstn end_ value) ++ marker)
             ++ skipn end_ value)
      with ((firstn start value ++ marker
             ++ skipn start (firstn end_ value) ++ marker)
            ++ skipn end_ value)
      by (rewrite <- !app_assoc; reflexivity).
    apply skipn_app_exact. symmetry. exact Hmid.
  - replace (firstn start value
             ++ (marker ++ skipn start (firstn end_ value) ++ marker)
             ++ skipn end_ value)
      with ((firstn start value ++ marker
             ++ skipn start (firstn end_ value) ++ marker)
            ++ skipn end_ value)
      by (rewrite <- !app_assoc; reflexivity).
    apply firstn_app_exact. symmetry. exact Hmid.
Qed.

Lemma formatText_caret_behind_marker_witness :
  exists newValue,
    formatText (lit "ola mundo cruel")
      (Some {| selectionStart := 4; selectionEnd := 9 |}) None (lit "italic")
    = Some newValue
    /\ formatTextCaret (lit "ola mundo cruel")
         (Some {| selectionStart := 4; selectionEnd := 9 |}) None
         (lit "italic") = Some (9 + 2)
    /\ length newValue = length (lit "ola mundo cruel") + 2
    /\ skipn (9 + 2) newValue = skipn 9 (lit "ola mundo cruel")
    /\ firstn (9 + 2) newValue
       = firstn 4 (lit "ola mundo cruel") ++ lit "_"
         ++ skipn 4 (firstn 9 (lit "ola mundo cruel")) ++ lit "_".
Proof.
  apply (formatText_caret_behind_marker (lit "ola mundo cruel") 4 9 None
           (lit "italic") (lit "_")).
  - lia.
  - vm_compute. lia.
  - simpl. right. left. reflexivity.
Defined.

(** X20. formatText calls onChange except in three cases: there is no
    textarea, the formatter is none of bold, italic, strikethrough and link,
    or the formatter is link and the prompt was cancelled or left empty.  A
    link with a URL replaces an empty selection by the URL itself and a
    non-empty selection by "[selection](URL)". *)
Theorem formatText_silent_cases
  (value : jsstring) (textarea : option TextArea) (url : option jsstring)
  (formatter : jsstring) :
  (formatText value textarea url formatter = None
   <-> textarea = None
       \/ ~ In formatter [lit "bold"; lit "italic"; lit "strikethrough";
                          lit "link"]
       \/ (formatter = lit "link" /\ (url = None \/ url = Some [])))
  /\ (forall ta c u,
        textarea = Some ta -> formatter = lit "link" -> url = Some (c :: u) ->
        formatText value textarea url formatter
        = Some (substring value 0 (selectionStart ta)
                ++ (match substring value (selectionStart ta)
                              (selectionEnd ta) with
                    | [] => c :: u
                    | _ :: _ =>
                        lit "["
                        ++ substring value (selectionStart ta)
                             (selectionEnd ta)
                        ++ lit "](" ++ (c :: u) ++ lit ")"
                    end)
                ++ substringFrom value (selectionEnd ta))).
Proof.
  split.
  - destruct textarea as [ta |];
      [| split; [intros _; left; reflexivity | reflexivity]].
    rewrite formatText_formattedText. unfold formattedText.
    destruct (strEq formatter (lit "bold")) eqn:Eb.
    { apply strEq_true_iff in Eb. subst formatter. cbn [option_map]. split;
        [discriminate |].
      intros [H | [H | [H _]]]; [discriminate H | | discriminate H].
      exfalso. apply H. simpl. tauto. }
    destruct (strEq formatter (lit "italic")) eqn:Ei.
    { apply strEq_true_iff in Ei. subst formatter. cbn [option_map]. split;
        [discriminate |].
      intros [H | [H | [H _]]]; [discriminate H | | discriminate H].
      exfalso. apply H. simpl. tauto. }
    destruct (strEq formatter (lit "strikethrough")) eqn:Es.
    { apply strEq_true_iff in Es. subst formatter. cbn [option_map]. split;
        [discriminate |].
      intros [H | [H | [H _]]]; [discriminate H | | discriminate H].
      exfalso. apply H. simpl. tauto. }
    destruct (strEq formatter (lit "link")) eqn:El.
    + apply strEq_true_iff in El. subst formatter.
      destruct url as [[|c u] |].
      * split; [intros _; right; right; split; [reflexivity | right; reflexivity]
               | reflexivity].
      * destruct (substring value (selectionStart ta) (selectionEnd ta));
          cbn [option_map]; (split; [discriminate |]);
          intros [H | [H | [_ [H | H]]]]; try discriminate H;
          exfalso; apply H; simpl; tauto.
      * split; [intros _; right; right; split; [reflexivity | left; reflexivity]
               | reflexivity].
    + split; [| reflexivity]. intros _. right. left.
      intros [H | [H | [H | [H | []]]]]; subst formatter;
        rewrite strEq_refl in *; discriminate.
  - intros ta c u -> -> ->. rewrite formatText_formattedText.
    unfold formattedText.
    change (strEq (lit "link") (lit "bold")) with false.
    change (strEq (lit "link") (lit "italic")) with false.
    change (strEq (lit "link") (lit "strikethrough")) with false.
    change (strEq (lit "link") (lit "link")) with true.
    cbv iota.
    destruct (substring value (selectionStart ta) (selectionEnd ta));
      reflexivity.
Qed.

Lemma formatText_silent_cases_witness :
  formatText (lit "veja aqui")
    (Some {| selectionStart := 5; selectionEnd := 9 |})
    (Some (lit "https://x.y")) (lit "link")
  = Some (lit "veja [aqui](https://x.y)").
Proof.
  rewrite (proj2 (formatText_silent_cases (lit "veja aqui")
                    (Some {| selectionStart := 5; selectionEnd := 9 |})
                    (Some (lit "https://x.y")) (lit "link"))
             {| selectionStart := 5; selectionEnd := 9 |}
             104%N (lit "ttps://x.y") eq_refl eq_refl eq_refl).
  vm_compute. reflexivity.
Defined.

(* ================================================================== *)
(** ** Beyond the claims: the highlight layer of the editor *)
(* ================================================================== *)

Section Highlight.











End Highlight.


(* ================================================================== *)
(** ** Beyond the claims: cells, quotes and the byte-order mark *)
(* ================================================================== *)

Section CellsAndMark.

Lemma trimStart_spaces (ws s : jsstring) :
  forallb isWhiteSpace ws = true -> trimStart (ws ++ s) = trimStart s.
Proof.
  induction ws as [|c ws IH]; [reflexivity |].
  cbn [forallb]. intros H. apply andb_true_iff in H. destruct H as [Hc Hws].
  cbn [app trimStart]. rewrite Hc. exact (IH Hws).
Qed.

Lemma forallb_rev {A} (f : A -> bool) (l : list A) :
  forallb f (rev l) = forallb f l.
Proof.
  induction l as [|a l IH]; [reflexivity |].
  cbn [rev forallb]. rewrite forallb_app, IH. cbn [forallb].
  rewrite andb_true_r. apply andb_comm.
Qed.

(** [trim] on a text between two runs of white space, when the text starts
    and ends with something else. *)
Lemma trim_between_spaces (ws1 ws2 q : jsstring) (a b : codeUnit) :
  forallb isWhiteSpace ws1 = true -> forallb isWhiteSpace ws2 = true ->
  isWhiteSpace a = false -> isWhiteSpace b = false ->
  (exists m, q = a :: m) -> (exists m, q = m ++ [b]) ->
  trim (ws1 ++ q ++ ws2) = q.
Proof.
  intros H1 H2 Ha Hb [m Hm] [m' Hm']. unfold trim, trimEnd.
  rewrite (trimStart_spaces ws1 (q ++ ws2) H1).
  rewrite Hm at 1. cbn [app trimStart]. rewrite Ha.
  change (a :: m ++ ws2) with ((a :: m) ++ ws2). rewrite <- Hm.
  rewrite rev_app_distr.
  rewrite (trimStart_spaces (rev ws2) (rev q))
    by (rewrite forallb_rev; exact H2).
  rewrite Hm' at 1. rewrite rev_app_distr. cbn [rev app trimStart].
  rewrite Hb. change (b :: rev m') with (rev [b] ++ rev m').
  rewrite <- rev_app_distr, <- Hm'. apply rev_involutive.
Qed.

Lemma stripQuotes_quoted (x : jsstring) :
  stripQuotes ([34%N] ++ x ++ [34%N]) = x.
Proof.
  unfold stripQuotes. cbn [app]. change (34 =? 34)%N with true. cbv iota.
  rewrite rev_app_distr. cbn [rev app]. change (34 =? 34)%N with true.
  cbv iota. apply rev_involutive.
Qed.

Lemma splitGo_consHead (m : jsstring -> option nat) (b : codeUnit)
  (s : jsstring) :
  forall cur, splitGo m 0 (cur ++ [b]) s = consHead b (splitGo m 0 cur s).
Proof.
  assert (Hrev : forall cur, rev (cur ++ [b]) = b :: rev cur)
    by (intros cur; rewrite rev_app_distr; reflexivity).
  induction s as [|c s IH]; intros cur; cbn [splitGo].
  - rewrite Hrev. reflexivity.
  - destruct (m (c :: s)) as [[|n] |].
    + change (c :: cur ++ [b]) with ((c :: cur) ++ [b]). apply IH.
    + rewrite Hrev. reflexivity.
    + change (c :: cur ++ [b]) with ((c :: cur) ++ [b]). apply IH.
Qed.

Lemma splitBy_cons (m : jsstring -> option nat) (b : codeUnit) (s : jsstring) :
  (forall n, m (b :: s) <> Some (S n)) ->
  splitBy m (b :: s) = consHead b (splitBy m s).
Proof.
  intros Hm. unfold splitBy. cbn [splitGo].
  destruct (m (b :: s)) as [[|n] |] eqn:E;
    try exact (splitGo_consHead m b s []).
  exfalso. exact (Hm n eq_refl).
Qed.

Lemma trim_mark (s : jsstring) : trim (mark :: s) = trim s.
Proof. reflexivity. Qed.

Lemma occurrences_mark (c : codeUnit) (s : jsstring) :
  N.eqb c mark = false -> occurrences c (mark :: s) = occurrences c s.
Proof. intros H. unfold occurrences. cbn [filter]. rewrite H. reflexivity. Qed.

Lemma detectDelimiter_mark (line : jsstring) :
  detectDelimiter (mark :: line) = detectDelimiter line.
Proof.
  rewrite !detectDelimiter_cases.
  rewrite !occurrences_mark by reflexivity. reflexivity.
Qed.

Lemma matchLiteral_mark (sep s : jsstring) :
  In sep delimiters -> forall n, matchLiteral sep (mark :: s) <> Some (S n).
Proof.
  intros [<- | [<- | [<- | []]]] n; unfold matchLiteral;
    vm_compute startsWith; discriminate.
Qed.

Lemma detectDelimiter_in (line : jsstring) :
  In (detectDelimiter line) delimiters.
Proof.
  rewrite detectDelimiter_cases. unfold delimiters.
  destruct (Nat.max (occurrences 44 line) (occurrences 59 line)
            <? occurrences 9 line);
    [| destruct (occurrences 44 line <? occurrences 59 line)];
    simpl; tauto.
Qed.

Lemma splitRow_mark (line : jsstring) :
  splitRow (detectDelimiter (mark :: line)) (mark :: line)
  = splitRow (detectDelimiter line) line.
Proof.
  rewrite detectDelimiter_mark. unfold splitRow, split.
  rewrite splitBy_cons
    by (apply matchLiteral_mark; apply detectDelimiter_in).
  destruct (splitBy (matchLiteral (detectDelimiter line)) line) as [|h t];
    reflexivity.
Qed.

Lemma splitLines_mark (csv : jsstring) :
  splitLines (mark :: csv) = splitLines csv
  \/ exists line0 rest,
       splitLines csv = line0 :: rest
       /\ splitLines (mark :: csv) = (mark :: line0) :: rest.
Proof.
  unfold splitLines.
  rewrite splitBy_cons
    by (intros n; rewrite (lineBreak_needs_backslash mark csv eq_refl);
        discriminate).
  destruct (splitBy matchLineBreak csv) as [|h t]; [left; reflexivity |].
  cbn [consHead filter]. rewrite (trim_mark h).
  destruct (0 <? length (trim h)).
  - right. exists h, (filter (fun line => 0 <? length (trim line)) t).
    split; reflexivity.
  - left. reflexivity.
Qed.

End CellsAndMark.

(** X22. A byte-order mark in front of the file text does not change the
    mapping: trimming the cells removes it from the first header, so the
    mapped contacts, or the error, are those of the text without the mark,
    and the mapping handler ends in the same state with the same effects. *)
Theorem mapping_ignores_leading_mark
  (n p : option jsstring) (r s : State) (csv : jsstring) :
  mapContacts n p (mark :: csv) = mapContacts n p csv
  /\ mappingLoaded r s (mark :: csv) = mappingLoaded r s csv.
Proof.
  assert (H : forall n p, mapContacts n p (mark :: csv) = mapContacts n p csv).
  { clear n p. intros n p. unfold mapContacts.
    destruct (splitLines_mark csv) as [-> | (line0 & rest & -> & ->)];
      [reflexivity |].
    cbv zeta. unfold mapHeaders.
    rewrite splitRow_mark, detectDelimiter_mark. reflexivity. }
  split; [apply H |].
  unfold mappingLoaded. rewrite H. reflexivity.
Qed.

(** X23. A cell written between double quotes, with white space around the
    quotes, gives exactly what is between the quotes: the white space
    outside is dropped, the text inside is kept as it is, white space and
    further quotes included. *)
Theorem quoted_cell_content (before after content : jsstring) :
  forallb isWhiteSpace before = true ->
  forallb isWhiteSpace after = true ->
  cleanCell (before ++ ([34%N] ++ content ++ [34%N]) ++ after) = content.
Proof.
  intros Hb Ha. unfold cleanCell.
  transitivity (stripQuotes ([34%N] ++ content ++ [34%N]));
    [| apply stripQuotes_quoted].
  apply (f_equal stripQuotes).
  apply (trim_between_spaces before after ([34%N] ++ content ++ [34%N])
           34%N 34%N Hb Ha eq_refl eq_refl).
  - exists (content ++ [34%N]). reflexivity.
  - exists ([34%N] ++ content). rewrite <- app_assoc. reflexivity.
Qed.

Lemma quoted_cell_content_witness :
  cleanCell (lit "  " ++ ([34%N] ++ lit " Ana Lima " ++ [34%N]) ++ [9%N])
  = lit " Ana Lima ".
Proof.
  apply (quoted_cell_content (lit "  ") [9%N] (lit " Ana Lima "));
    vm_compute; reflexivity.
Defined.
